(** * AttributionIQ browser tracker ([static/tracker.js])

    A shallow embedding of the tracker script and the properties its
    specification states about it.

    The script is one [DOMContentLoaded] handler.  It reads the tenant
    configuration from [window.attributionIQ], sends a page-view event,
    and installs [window.attributionIQ.trackConversion].  Everything the
    script touches outside itself is made explicit here:

    - [localStorage] is a finite map from keys to strings;
    - the console and the network are logs (lists) that only grow;
    - [window.attributionIQ] is an optional record;
    - [document.referrer], [Math.random()] and [Date.now()] are read from
      an [ambient] record handed to every call, so that each call sees the
      values of its own moment. *)

From Stdlib Require Import ZArith Ascii String List Lia.
From Stdlib Require Import Floats.SpecFloat.
From stdpp Require Import base option list strings gmap.

Local Open Scope Z_scope.

(** ** JSON *)

Module JSON.

(** What [JSON.stringify] writes for a value.  The text itself (number
    formatting, string escapes) is not modelled. *)
#[warnings="-register-all"] Inductive json : Type :=
  | JNull
  | JBool (b : bool)
  | JNumber (x : spec_float)
  | JString (s : string)
  | JArray (items : list json)
  | JObject (fields : list (string * json)).

(** A serialised object: its fields in the order they are written. *)
Definition object : Type := list (string * json).

(** [field k body]: the value written for the field named [k], [None]
    when the object has no such field. *)
Fixpoint field (k : string) (body : object) : option json :=
  match body with
  | [] => None
  | (k', j) :: rest => if String.eqb k k' then Some j else field k rest
  end.

End JSON.

(** ** JavaScript values *)

Module JS.

(** The primitive values that JSON can carry: the fields of an event are
    of these kinds.  Numbers are IEEE-754 binary64, kept as [spec_float]
    (sign, mantissa, exponent; both zeros, both infinities and NaN). *)
Inductive value : Type :=
  | Undefined
  | Null
  | Bool (b : bool)
  | Number (x : spec_float)
  | Str (s : string).

(** The binary64 number nearest to an integer. *)
Definition of_Z (z : Z) : spec_float := binary_normalize 53 1024 z 0 false.

(** [ToBoolean] on numbers: zero of either sign and NaN are falsy. *)
Definition number_truthy (x : spec_float) : bool :=
  match x with
  | S754_zero _ | S754_nan => false
  | S754_infinity _ | S754_finite _ _ _ => true
  end.

(** [ToBoolean] on strings: only the empty string is falsy. *)
Definition string_truthy (s : string) : bool :=
  match s with
  | EmptyString => false
  | String _ _ => true
  end.

(** [ToBoolean]. *)
Definition truthy (v : value) : bool :=
  match v with
  | Undefined | Null => false
  | Bool b => b
  | Number x => number_truthy x
  | Str s => string_truthy s
  end.

(** A possibly missing string ([undefined] or [null] when [None]), as
    read from a property, from [document.referrer] or from
    [localStorage.getItem]; [!x] holds for a missing or empty one. *)
Definition present (x : option string) : bool :=
  match x with
  | None => false
  | Some s => string_truthy s
  end.

(** [String.prototype.startsWith]: [key] is read off the front of [s]. *)
Fixpoint startsWith (s key : string) : bool :=
  match key, s with
  | EmptyString, _ => true
  | String _ _, EmptyString => false
  | String k key', String c s' => if Ascii.eqb k c then startsWith s' key' else false
  end.

(** [String.prototype.includes]: [key] starts at some position of [s]. *)
Fixpoint includes (s key : string) : bool :=
  startsWith s key ||
  match s with
  | EmptyString => false
  | String _ s' => includes s' key
  end.

(** [String.prototype.substr(start, length)] for non-negative arguments:
    at most [len] characters from position [start], fewer when the string
    ends first. *)
Fixpoint substr (start len : nat) (s : string) : string :=
  match start, len, s with
  | _, _, EmptyString => EmptyString
  | S start', _, String _ s' => substr start' len s'
  | O, O, String _ _ => EmptyString
  | O, S len', String c s' => String c (substr O len' s')
  end.

(** The digit characters of [Number.prototype.toString(radix)]. *)
Definition digit_char (d : N) : ascii :=
  if (d <? 10)%N then ascii_of_N (48 + d) else ascii_of_N (87 + d).

(** The digits of a natural number in radix 36, most significant first;
    [fuel] bounds the number of digits written. *)
Fixpoint digits36 (fuel : nat) (n : N) (acc : string) : string :=
  let acc' := String (digit_char (n mod 36)) acc in
  match fuel with
  | O => acc'
  | S fuel' => if (n / 36 =? 0)%N then acc' else digits36 fuel' (n / 36)%N acc'
  end.

(** [n.toString(36)] for an integer [n] that a binary64 holds exactly,
    as every reading of [Date.now()] is (at most 8.64e15 in size, below
    2^53): the digits are then the exact radix-36 digits of [n]. *)
Definition toString36 (n : Z) : string :=
  match n with
  | Z0 => "0"
  | Zpos p => digits36 (Pos.size_nat p) (Npos p) ""
  | Zneg p => String "-" (digits36 (Pos.size_nat p) (Npos p) "")
  end.

(** What [JSON.stringify] makes of one property value: it writes it,
    leaves the property out, or throws a [TypeError]. *)
Inductive serialisation : Type :=
  | Written (j : JSON.json)
  | Omitted
  | Throws.

(** Any value that page code can pass to [trackConversion].  Besides the
    primitives above there are BigInts, symbols and objects (functions,
    arrays and dates among them).  The script does two things with such
    a value: it tests it in [value || 0] and it hands it to
    [JSON.stringify]; every object is truthy, so an object is kept as
    what [JSON.stringify] makes of it, its [toJSON] and getters being
    taken to have no effect of their own.  A plain function is
    [Object Omitted], an object with a cycle [Object Throws]. *)
Inductive any : Type :=
  | Primitive (v : value)
  | BigInt (n : Z)
  | Symbol (description : string)
  | Object (toJSON : serialisation).

(** [ToBoolean] on any value: a BigInt is falsy when it is [0n], symbols
    and objects are truthy. *)
Definition ToBoolean (x : any) : bool :=
  match x with
  | Primitive v => truthy v
  | BigInt n => negb (n =? 0)
  | Symbol _ => true
  | Object _ => true
  end.

(** [a || b]: the left operand when it is truthy, else the right one. *)
Definition or (a b : any) : any := if ToBoolean a then a else b.

End JS.

(** A primitive value is read as a value of any kind where one is
    expected. *)
Coercion JS.Primitive : JS.value >-> JS.any.


(** ** [JSON.stringify] *)

Module Stringify.

(** Serialisation of one primitive value; [None] for [undefined], whose
    property is left out of the enclosing object.  Non-finite numbers are
    written as [null], and negative zero as [0]. *)
Definition of_value (v : JS.value) : option JSON.json :=
  match v with
  | JS.Undefined => None
  | JS.Null => Some JSON.JNull
  | JS.Bool b => Some (JSON.JBool b)
  | JS.Number (S754_finite s m e) => Some (JSON.JNumber (S754_finite s m e))
  | JS.Number (S754_zero _) => Some (JSON.JNumber (S754_zero false))
  | JS.Number (S754_infinity _) => Some JSON.JNull
  | JS.Number S754_nan => Some JSON.JNull
  | JS.Str s => Some (JSON.JString s)
  end.

(** Serialisation of one property value of any kind: a BigInt makes
    [JSON.stringify] throw, a symbol is left out, an object gives what
    its own serialisation gives. *)
Definition of_any (x : JS.any) : JS.serialisation :=
  match x with
  | JS.Primitive v =>
      match of_value v with
      | Some j => JS.Written j
      | None => JS.Omitted
      end
  | JS.BigInt _ => JS.Throws
  | JS.Symbol _ => JS.Omitted
  | JS.Object toJSON => toJSON
  end.

(** [JSON.stringify] of an object literal, in property order; [None]
    when it throws. *)
Fixpoint stringify (props : list (string * JS.any)) : option JSON.object :=
  match props with
  | [] => Some []
  | (k, x) :: rest =>
      match of_any x with
      | JS.Written j =>
          match stringify rest with
          | Some fields => Some ((k, j) :: fields)
          | None => None
          end
      | JS.Omitted => stringify rest
      | JS.Throws => None
      end
  end.

End Stringify.

(** ** The world around the script *)

(** A call of [fetch(url, {method, headers, body})]. *)
Record request : Type := Request {
  url : string;
  method : string;
  headers : list (string * string);
  body : JSON.object
}.

(** The function stored in [window.attributionIQ.trackConversion].  Its
    body is [trackConversion] below; the only variable it closes over is
    the [apiKey] constant of the handler that created it. *)
Inductive closure : Type :=
  | TrackConversion (apiKey : string).

(** The object in [window.attributionIQ]; a property is [None] when it is
    missing. *)
Record attributionIQ : Type := AttributionIQ {
  tenant_id : option string;
  api_key : option string;
  trackConversion_prop : option closure
}.

(** One call of [console.error]: its arguments, an error object being
    kept as its text. *)
Definition console_line : Type := list string.

Record world : Type := World {
  localStorage : gmap string string;
  console : list console_line;
  network : list request;
  window_attributionIQ : option attributionIQ
}.

(** Reading a property off [window.attributionIQ]: missing when the
    global itself is. *)
Definition property {A} (proj : attributionIQ -> option A)
    (global : option attributionIQ) : option A :=
  match global with
  | Some object => proj object
  | None => None
  end.

(** What the page and the clock hold at the moment of one call:
    [document.referrer] ([None] when absent), the text of
    [Math.random().toString(36)], and [Date.now()], a whole number of
    milliseconds. *)
Record ambient : Type := Ambient {
  referrer : option string;
  random36 : string;
  now : Z
}.

(** Effects are state transformers over [world]. *)
Definition M (A : Type) : Type := world -> A * world.

#[global] Instance M_ret : MRet M := fun A x w => (x, w).
#[global] Instance M_bind : MBind M :=
  fun A B f m w => let '(x, w') := m w in f x w'.

Definition exec {A} (m : M A) (w : world) : world := snd (m w).
Definition eval {A} (m : M A) (w : world) : A := fst (m w).

Definition getItem (key : string) : M (option string) :=
  fun w => (localStorage w !! key, w).

Definition setItem (key value : string) : M unit :=
  fun w => (tt, World (<[key := value]> (localStorage w)) (console w)
                      (network w) (window_attributionIQ w)).

Definition console_error (line : console_line) : M unit :=
  fun w => (tt, World (localStorage w) (console w ++ [line])
                      (network w) (window_attributionIQ w)).

Definition fetch (r : request) : M unit :=
  fun w => (tt, World (localStorage w) (console w)
                      (network w ++ [r]) (window_attributionIQ w)).

Definition read_global : M (option attributionIQ) :=
  fun w => (window_attributionIQ w, w).

Definition write_global (g : attributionIQ) : M unit :=
  fun w => (tt, World (localStorage w) (console w) (network w) (Some g)).

(** How the transport settles the promise of one [fetch]: a response of
    any status fulfils it, a transport failure rejects it. *)
Inductive outcome : Type :=
  | Responded (status : nat)
  | Failed (error : string).

(** The state of a settled promise; a rejected one with no handler left
    is what reaches the page as an unhandled rejection. *)
Inductive promise : Type :=
  | Fulfilled
  | Rejected (reason : string).

(** [p.catch(h)] once [p] has settled: [h] runs on rejection only, and
    the chained promise is fulfilled when [h] returns. *)
Definition catch (p : outcome) (h : string -> M unit) : M promise :=
  match p with
  | Responded _ => mret Fulfilled
  | Failed error => h error;; mret Fulfilled
  end.

(** ** The script *)

Module Tracker.

Definition endpoint : string :=
  "https://attributioniq-saas.onrender.com/api/v1/track".

Definition storage_key : string := "attributioniq_cid".

(** The number literals [1.0] and [0]. *)
Definition one : spec_float := JS.of_Z 1.
Definition zero : spec_float := S754_zero false.

(** The [.catch] callback of [trackEvent]. *)
Definition trackEvent_catch (error : string) : M unit :=
  console_error ["AttributionIQ tracking error:"; error].

(** [trackEvent(data)]: the synchronous part.  The options of [fetch]
    are evaluated first, so that when [JSON.stringify] throws [fetch] is
    not called; the result is [true] when [trackEvent] returns and
    [false] when it throws. *)
Definition trackEvent (apiKey : string) (data : list (string * JS.any)) : M bool :=
  match Stringify.stringify data with
  | Some text =>
      fetch {| url := endpoint;
               method := "POST";
               headers := [("Content-Type", "application/json");
                           ("Authorization", "Bearer " +:+ apiKey)];
               body := text |};;
      mret true
  | None => mret false
  end.

(** The asynchronous part: the promise chain of [trackEvent] once the
    transport has settled the request. *)
Definition trackEvent_settled (p : outcome) : M promise :=
  catch p trackEvent_catch.

(** The [domains] table, in the order [Object.entries] walks it. *)
Definition domains : list (string * string) :=
  [("google", "google");
   ("bing", "bing");
   ("yahoo", "yahoo");
   ("duckduckgo", "duckduckgo");
   ("facebook", "facebook");
   ("instagram", "instagram");
   ("twitter", "twitter");
   ("linkedin", "linkedin");
   ("tiktok", "tiktok")].

(** The [for ... of] loop: the value of the first entry whose key the
    referrer includes. *)
Fixpoint first_match (ref : string) (entries : list (string * string)) : option string :=
  match entries with
  | [] => None
  | (key, value) :: rest =>
      if JS.includes ref key then Some value else first_match ref rest
  end.

Definition getReferralChannel (referrer : option string) : string :=
  match referrer with
  | None => "direct"
  | Some ref =>
      if negb (JS.string_truthy ref) then "direct"
      else match first_match ref domains with
           | Some value => value
           | None => "other"
           end
  end.

(** [cid] is a non-empty string where it is returned as read. *)
Definition getCustomerId (a : ambient) : M string :=
  cid ← getItem storage_key;
  if negb (JS.present cid) then
    let cid := JS.substr 2 10 (random36 a) +:+ JS.toString36 (now a) in
    setItem storage_key cid;;
    mret cid
  else mret (default "" cid).

(** The body of [window.attributionIQ.trackConversion]; [value] is
    [Undefined] when the caller passes no argument.  The result is
    [true] when the call returns and [false] when it throws. *)
Definition trackConversion (apiKey : string) (value : JS.any) (a : ambient) : M bool :=
  cid ← getCustomerId a;
  trackEvent apiKey
    [("customer_id", JS.Primitive (JS.Str cid));
     ("channel", JS.Primitive (JS.Str (getReferralChannel (referrer a))));
     ("value", JS.Primitive (JS.Number one));
     ("is_conversion", JS.Primitive (JS.Bool true));
     ("conversion_value", JS.or value (JS.Primitive (JS.Number zero)))].

Definition empty_object : attributionIQ := AttributionIQ None None None.

(** The [DOMContentLoaded] handler.  Past the guard [apiKey] is a
    non-empty string, [key] below.  The result is [true] when the
    handler returns and [false] when it throws, which stops it before
    the conversion function is installed. *)
Definition DOMContentLoaded (a : ambient) : M bool :=
  global ← read_global;
  let config := default empty_object global in
  let tenantId := tenant_id config in
  let apiKey := api_key config in
  if negb (JS.present tenantId) || negb (JS.present apiKey) then
    console_error ["AttributionIQ: Missing tenant_id or api_key in configuration"];;
    mret true
  else
    let key := default "" apiKey in
    cid ← getCustomerId a;
    trackEvent key
      [("customer_id", JS.Primitive (JS.Str cid));
       ("channel", JS.Primitive (JS.Str (getReferralChannel (referrer a))));
       ("value", JS.Primitive (JS.Number one))] ≫= fun returned : bool =>
    if returned then
      global ← read_global;
      let target := default empty_object global in
      write_global (AttributionIQ (tenant_id target) (api_key target)
                                  (Some (TrackConversion key)));;
      mret true
    else mret false.

(** Page code calling [window.attributionIQ.trackConversion(value)]:
    [true] when the call returns, [false] when it throws, which it does
    when there is no such function to call and when the function itself
    throws. *)
Definition call_trackConversion (value : JS.any) (a : ambient) : M bool :=
  global ← read_global;
  match property trackConversion_prop global with
  | Some (TrackConversion apiKey) => trackConversion apiKey value a
  | None => mret false
  end.

End Tracker.

(** ** Vocabulary of the specification *)

(** The nine tokens, in the order the specification lists them. *)
Definition tokens : list string :=
  ["google"; "bing"; "yahoo"; "duckduckgo"; "facebook";
   "instagram"; "twitter"; "linkedin"; "tiktok"].

(** [key] occurs in [s] as a substring. *)
Definition occurs_in (key s : string) : Prop :=
  exists pre post, s = pre +:+ key +:+ post.

(** ASCII lower-casing, to speak about letter case. *)
Definition lower_char (c : ascii) : ascii :=
  let n := N_of_ascii c in
  if ((65 <=? n) && (n <=? 90))%N then ascii_of_N (n + 32) else c.

Fixpoint lowercase (s : string) : string :=
  match s with
  | EmptyString => EmptyString
  | String c s' => String (lower_char c) (lowercase s')
  end.

(** [u] spells the token [t] with at least one letter in upper case. *)
Definition case_variant (u t : string) : Prop :=
  u <> t /\ lowercase u = t.

(** A configuration field that is missing or empty. *)
Definition missing_or_empty (x : option string) : Prop :=
  x = None \/ x = Some "".

(** The configuration field [proj] of [window.attributionIQ], missing
    when the global itself is. *)
Definition config_field (proj : attributionIQ -> option string) (w : world) : option string :=
  property proj (window_attributionIQ w).

(** The conversion function installed in [window.attributionIQ]. *)
Definition installed (w : world) : option closure :=
  property trackConversion_prop (window_attributionIQ w).

(** The same world with one more console line. *)
Definition logged (line : console_line) (w : world) : world :=
  World (localStorage w) (console w ++ [line]) (network w) (window_attributionIQ w).

(** What the request body holds for [conversion_value], by the kind of
    the argument: a finite number is sent as it is, a falsy argument
    (absent, [null], [false], a zero, NaN, the empty string) as [0], any
    other truthy argument unchanged; [JSON.stringify] writes an infinite
    number as [null]. *)
Definition sent_conversion_value (v : JS.value) : JSON.json :=
  match v with
  | JS.Number (S754_finite s m e) => JSON.JNumber (S754_finite s m e)
  | JS.Number (S754_infinity _) => JSON.JNull
  | JS.Bool true => JSON.JBool true
  | JS.Str (String c s) => JSON.JString (String c s)
  | JS.Undefined | JS.Null | JS.Bool false
  | JS.Number (S754_zero _) | JS.Number S754_nan | JS.Str EmptyString =>
      JSON.JNumber (S754_zero false)
  end.

(** The two diagnostics of the script. *)
Definition config_error : console_line :=
  ["AttributionIQ: Missing tenant_id or api_key in configuration"].

Definition tracking_error (error : string) : console_line :=
  ["AttributionIQ tracking error:"; error].

(** Sample inputs: a configured page on its first visit, a page with no
    tenant, and the moment of a call. *)
Definition configured_page : world :=
  World ∅ [] [] (Some (AttributionIQ (Some "tenant-1") (Some "key-1") None)).

Definition unconfigured_page : world :=
  World ∅ [] [] (Some (AttributionIQ None (Some "key-1") None)).

Definition a_moment : ambient :=
  Ambient (Some "https://www.google.com/search?q=shoes") "0.4fzyo82mvyr" 1700000000000.

(** The value of a radix-36 digit, as [parseInt(s, 36)] reads the
    lower-case digits. *)
Definition digit_value (c : ascii) : option N :=
  let n := N_of_ascii c in
  if ((48 <=? n) && (n <=? 57))%N then Some (n - 48)%N
  else if ((97 <=? n) && (n <=? 122))%N then Some (n - 87)%N
  else None.

(** The number a string of radix-36 digits denotes, read after [acc]. *)
Fixpoint parse36 (acc : N) (s : string) : option N :=
  match s with
  | EmptyString => Some acc
  | String c s' =>
      match digit_value c with
      | Some d => parse36 (acc * 36 + d) s'
      | None => None
      end
  end.

(** Reading back a signed radix-36 numeral with at least one digit. *)
Definition parseInt36 (s : string) : option Z :=
  match s with
  | EmptyString => None
  | String "-" EmptyString => None
  | String "-" digits => (fun n => - Z.of_N n) <$> parse36 0 digits
  | digits => Z.of_N <$> parse36 0 digits
  end.

(** The number 1.0 as a binary64: mantissa 2^52, exponent -52. *)
Definition number_1_0 : spec_float := S754_finite false 4503599627370496 (-52).

(** The address every request is sent to. *)
Definition endpoint_url : string :=
  "https://attributioniq-saas.onrender.com/api/v1/track".

(** The two headers of every request. *)
Definition request_headers (apiKey : string) : list (string * string) :=
  [("Content-Type", "application/json"); ("Authorization", "Bearer " +:+ apiKey)].

(** The page-view request for the identifier [cid] at the moment [a]. *)
Definition page_view_request (apiKey cid : string) (a : ambient) : request :=
  Request endpoint_url "POST" (request_headers apiKey)
    [("customer_id", JSON.JString cid);
     ("channel", JSON.JString (Tracker.getReferralChannel (referrer a)));
     ("value", JSON.JNumber number_1_0)].

(** What becomes of [conversion_value] for an argument of any kind: a
    primitive is written as [sent_conversion_value] has it; [0n] is
    falsy and gives [0], any other BigInt makes the serialisation throw;
    a symbol is left out; an object gives what its own serialisation
    gives. *)
Definition conversion_value_sent (x : JS.any) : JS.serialisation :=
  match x with
  | JS.Primitive v => JS.Written (sent_conversion_value v)
  | JS.BigInt Z0 => JS.Written (JSON.JNumber (S754_zero false))
  | JS.BigInt _ => JS.Throws
  | JS.Symbol _ => JS.Omitted
  | JS.Object toJSON => toJSON
  end.

(** An argument with which the conversion event can be serialised. *)
Definition serialisable (x : JS.any) : bool :=
  match conversion_value_sent x with
  | JS.Throws => false
  | _ => true
  end.

(** The requests of one conversion call with the argument [x], for the
    identifier [cid] at the moment [a]: one request, with
    [conversion_value] when it is written and without it when it is left
    out, and no request when the serialisation throws. *)
Definition conversion_requests (apiKey cid : string) (x : JS.any) (a : ambient)
    : list request :=
  match conversion_value_sent x with
  | JS.Written j =>
      [Request endpoint_url "POST" (request_headers apiKey)
         [("customer_id", JSON.JString cid);
          ("channel", JSON.JString (Tracker.getReferralChannel (referrer a)));
          ("value", JSON.JNumber number_1_0);
          ("is_conversion", JSON.JBool true);
          ("conversion_value", j)]]
  | JS.Omitted =>
      [Request endpoint_url "POST" (request_headers apiKey)
         [("customer_id", JSON.JString cid);
          ("channel", JSON.JString (Tracker.getReferralChannel (referrer a)));
          ("value", JSON.JNumber number_1_0);
          ("is_conversion", JSON.JBool true)]]
  | JS.Throws => []
  end.

(** The identifier a request carries. *)
Definition customer_id_of (r : request) : option JSON.json :=
  JSON.field "customer_id" (body r).

(** Page code calling [window.attributionIQ.trackConversion] once per
    element of [calls], each call at its own moment and from a handler
    of its own, so that a call that throws does not stop the later
    ones. *)
Fixpoint call_all (calls : list (JS.any * ambient)) : M unit :=
  match calls with
  | [] => mret tt
  | (value, a) :: rest => Tracker.call_trackConversion value a;; call_all rest
  end.

(** The transport settling the requests of earlier events, one outcome
    after the other. *)
Fixpoint settle_all (outcomes : list outcome) : M unit :=
  match outcomes with
  | [] => mret tt
  | p :: rest => Tracker.trackEvent_settled p;; settle_all rest
  end.

(** The errors among a list of outcomes, in order. *)
Fixpoint failures (outcomes : list outcome) : list string :=
  match outcomes with
  | [] => []
  | Responded _ :: rest => failures rest
  | Failed error :: rest => error :: failures rest
  end.

(** A returning visitor's page: configured, with an identifier stored
    and another key of the page's own. *)
Definition returning_page : world :=
  World (<[Tracker.storage_key := "abc123"]> {["theme" := "dark"]}) [] []
        (Some (AttributionIQ (Some "tenant-1") (Some "key-1") None)).

(** ** Strings *)

Section Strings.

Implicit Types s key pre post : string.

Lemma append_empty s : "" +:+ s = s.
Proof. reflexivity. Qed.

Lemma append_cons c s1 s2 : String c s1 +:+ s2 = String c (s1 +:+ s2).
Proof. reflexivity. Qed.

Lemma startsWith_spec s key :
  JS.startsWith s key = true <-> exists post, s = key +:+ post.
Proof.
  revert s. induction key as [|k key IH]; intros s.
  - destruct s; simpl; split; eauto.
  - destruct s as [|c s]; simpl.
    + split; [discriminate | intros [post H]; discriminate].
    + setoid_rewrite append_cons.
      destruct (Ascii.eqb_spec k c) as [->|Hne].
      * rewrite IH. split; intros [post H]; exists post; congruence.
      * split; [discriminate | intros [post H]; congruence].
Qed.

Lemma includes_empty key : JS.includes "" key = JS.startsWith "" key || false.
Proof. reflexivity. Qed.

Lemma includes_cons c s key :
  JS.includes (String c s) key = JS.startsWith (String c s) key || JS.includes s key.
Proof. reflexivity. Qed.

Lemma includes_spec s key : JS.includes s key = true <-> occurs_in key s.
Proof.
  induction s as [|c s IH]; [rewrite includes_empty | rewrite includes_cons].
  - rewrite orb_false_r, startsWith_spec. split.
    + intros [post H]. exists "", post. exact H.
    + intros (pre & post & H). destruct pre; [eauto | discriminate].
  - rewrite orb_true_iff, startsWith_spec, IH. split.
    + intros [[post H] | (pre & post & H)].
      * exists "", post. exact H.
      * exists (String c pre), post. rewrite append_cons. now rewrite H.
    + intros (pre & post & H). destruct pre as [|c' pre].
      * left. eauto.
      * right. exists pre, post. rewrite append_cons in H. congruence.
Qed.

Lemma not_includes_spec s key : JS.includes s key = false <-> ~ occurs_in key s.
Proof.
  rewrite <- includes_spec. destruct (JS.includes s key); split; congruence.
Qed.

Lemma string_truthy_spec s : JS.string_truthy s = true <-> s <> "".
Proof. destruct s; simpl; split; congruence. Qed.

Lemma lowercase_append s1 s2 : lowercase (s1 +:+ s2) = lowercase s1 +:+ lowercase s2.
Proof.
  induction s1 as [|c s1 IH]; [reflexivity |].
  rewrite append_cons. simpl. now rewrite IH, append_cons.
Qed.

Lemma occurs_in_lowercase key s : occurs_in key s -> occurs_in (lowercase key) (lowercase s).
Proof.
  intros (pre & post & ->). exists (lowercase pre), (lowercase post).
  now rewrite !lowercase_append.
Qed.

Lemma lowercase_nonempty s : s <> "" -> lowercase s <> "".
Proof. destruct s; simpl; congruence. Qed.

Lemma append_nonempty_r s1 s2 : s2 <> "" -> s1 +:+ s2 <> "".
Proof. destruct s1; [auto | rewrite append_cons; discriminate]. Qed.

Lemma digits36_nonempty fuel n acc : JS.digits36 fuel n acc <> "".
Proof.
  revert n acc. induction fuel as [|fuel IH]; intros n acc; simpl.
  - discriminate.
  - destruct (n / 36 =? 0)%N; [discriminate | apply IH].
Qed.

Lemma toString36_nonempty n : JS.toString36 n <> "".
Proof.
  destruct n; simpl; [discriminate | apply digits36_nonempty | discriminate].
Qed.

End Strings.

Example toString36_samples :
  JS.toString36 0 = "0" /\ JS.toString36 35 = "z" /\ JS.toString36 36 = "10"
  /\ JS.toString36 1700000000000 = "loyw3v28" /\ JS.toString36 (-71) = "-1z".
Proof. repeat split; reflexivity. Qed.

Example substr_samples :
  JS.substr 2 10 "0.4fzyo82mvyr" = "4fzyo82mvy" /\ JS.substr 2 10 "0.abc" = "abc"
  /\ JS.substr 2 10 "0" = "".
Proof. repeat split; reflexivity. Qed.

Example includes_samples :
  JS.includes "https://www.google.com/" "google" = true
  /\ JS.includes "https://www.Google.com/" "google" = false
  /\ JS.includes "goog" "google" = false.
Proof. repeat split; reflexivity. Qed.

(** ** Channel derivation *)

Section Channel.

Implicit Types ref t : string.

(** The table maps every token to itself, in the listed order. *)
Lemma domains_tokens : Tracker.domains = map (fun t => (t, t)) tokens.
Proof. reflexivity. Qed.

(** What the loop returns over a table that maps each key to itself: the
    first key that occurs in the referrer, or nothing when none does. *)
Lemma first_match_spec ref (keys : list string) :
  match Tracker.first_match ref (map (fun t => (t, t)) keys) with
  | Some t =>
      exists i, keys !! i = Some t /\ occurs_in t ref /\
        forall j t', (j < i)%nat -> keys !! j = Some t' -> ~ occurs_in t' ref
  | None => forall t, t ∈ keys -> ~ occurs_in t ref
  end.
Proof.
  induction keys as [|k keys IH]; simpl.
  - intros t Hin. inversion Hin.
  - destruct (JS.includes ref k) eqn:Hk.
    + exists 0%nat. split; [reflexivity |]. split; [now apply includes_spec |].
      intros j t' Hj. lia.
    + apply not_includes_spec in Hk.
      destruct (Tracker.first_match ref (map (fun t => (t, t)) keys)) as [t|].
      * destruct IH as (i & Hi & Hocc & Hmin).
        exists (S i). split; [exact Hi |]. split; [exact Hocc |].
        intros [|j] t' Hj Hj'; simpl in Hj'.
        -- now injection Hj' as <-.
        -- apply (Hmin j); [lia | exact Hj'].
      * intros t Hin. apply elem_of_cons in Hin as [-> | Hin]; [exact Hk | now apply IH].
Qed.

(** No token occurs in the empty string. *)
Lemma tokens_not_in_empty t : t ∈ tokens -> ~ occurs_in t "".
Proof.
  intros Hin. apply not_includes_spec. revert t Hin. apply Forall_forall.
  unfold tokens. repeat constructor.
Qed.

Lemma first_match_token ref t :
  Tracker.first_match ref Tracker.domains = Some t -> t ∈ tokens.
Proof.
  intros H. pose proof (first_match_spec ref tokens) as Hs.
  rewrite <- domains_tokens, H in Hs. destruct Hs as (i & Hi & _).
  eapply list_elem_of_lookup_2, Hi.
Qed.

Lemma other_not_token : "other" ∉ tokens.
Proof. unfold tokens. rewrite !not_elem_of_cons. repeat split; try discriminate. apply not_elem_of_nil. Qed.

(** The derived label of a referrer in which some token occurs. *)
Lemma getReferralChannel_first ref :
  (exists t, t ∈ tokens /\ occurs_in t ref) ->
  exists i t,
    tokens !! i = Some t /\ occurs_in t ref /\
    (forall j t', (j < i)%nat -> tokens !! j = Some t' -> ~ occurs_in t' ref) /\
    Tracker.getReferralChannel (Some ref) = t.
Proof.
  intros (t0 & Hin & Hocc).
  assert (Hne : JS.string_truthy ref = true).
  { destruct ref; [| reflexivity]. now apply tokens_not_in_empty in Hocc. }
  pose proof (first_match_spec ref tokens) as Hs. rewrite <- domains_tokens in Hs.
  unfold Tracker.getReferralChannel. rewrite Hne. simpl negb. cbv iota.
  destruct (Tracker.first_match ref Tracker.domains) as [t|].
  - destruct Hs as (i & Hi & Ht & Hmin). exists i, t. auto.
  - now apply Hs in Hocc.
Qed.

(** The derived label of a non-empty referrer in which no token occurs. *)
Lemma getReferralChannel_none ref :
  ref <> "" ->
  (forall t, t ∈ tokens -> ~ occurs_in t ref) ->
  Tracker.getReferralChannel (Some ref) = "other".
Proof.
  intros Hne Hnone. apply string_truthy_spec in Hne.
  unfold Tracker.getReferralChannel. rewrite Hne. simpl negb. cbv iota.
  destruct (Tracker.first_match ref Tracker.domains) as [t|] eqn:Hm; [| reflexivity].
  pose proof (first_match_spec ref tokens) as Hs. rewrite <- domains_tokens, Hm in Hs.
  destruct Hs as (i & Hi & Ht & _).
  exfalso. apply (Hnone t); [eapply list_elem_of_lookup_2, Hi | exact Ht].
Qed.

End Channel.

(** C2: a referrer in which at least one of the nine tokens occurs is
    labelled with the first token, in the listed order, that occurs in
    it as a substring. *)
Theorem channel_is_first_token (ref : string) :
  (exists t, t ∈ tokens /\ occurs_in t ref) ->
  exists i t,
    tokens !! i = Some t /\ occurs_in t ref /\
    (forall j t', (j < i)%nat -> tokens !! j = Some t' -> ~ occurs_in t' ref) /\
    Tracker.getReferralChannel (Some ref) = t.
Proof. apply getReferralChannel_first. Qed.

Lemma channel_is_first_token_witness :
  exists i t,
    tokens !! i = Some t /\ occurs_in t "https://www.google.com/?ref=facebook" /\
    (forall j t', (j < i)%nat -> tokens !! j = Some t' ->
       ~ occurs_in t' "https://www.google.com/?ref=facebook") /\
    Tracker.getReferralChannel (Some "https://www.google.com/?ref=facebook") = t.
Proof.
  apply channel_is_first_token. exists "facebook". split.
  - unfold tokens. do 4 apply list_elem_of_further. apply list_elem_of_here.
  - exists "https://www.google.com/?ref=", "". reflexivity.
Defined.

Example channel_google_before_facebook :
  Tracker.getReferralChannel (Some "https://www.google.com/?ref=facebook") = "google".
Proof. reflexivity. Qed.

(** C7: an absent or empty referrer is labelled ["direct"]. *)
Theorem channel_direct (referrer : option string) :
  referrer = None \/ referrer = Some "" ->
  Tracker.getReferralChannel referrer = "direct".
Proof. intros [-> | ->]; reflexivity. Qed.

Lemma channel_direct_witness :
  Tracker.getReferralChannel None = "direct" /\ Tracker.getReferralChannel (Some "") = "direct".
Proof.
  split; [apply (channel_direct None); left | apply (channel_direct (Some "")); right];
    reflexivity.
Defined.

(** C8: a non-empty referrer in which none of the nine tokens occurs is
    labelled ["other"]. *)
Theorem channel_other (ref : string) :
  ref <> "" ->
  (forall t, t ∈ tokens -> ~ occurs_in t ref) ->
  Tracker.getReferralChannel (Some ref) = "other".
Proof. apply getReferralChannel_none. Qed.

Lemma channel_other_witness :
  Tracker.getReferralChannel (Some "https://news.example.org/story") = "other".
Proof.
  apply channel_other; [discriminate |].
  intros t Hin. apply not_includes_spec. revert t Hin. apply Forall_forall.
  unfold tokens. repeat constructor.
Defined.

(** C10: matching is case-sensitive.  A non-empty referrer in which a
    token occurs only with some letter in upper case, and no token occurs
    as listed, is labelled ["other"]; the same referrer in lower case is
    labelled with a token. *)
Theorem channel_case_sensitive (ref : string) :
  ref <> "" ->
  (exists t u, t ∈ tokens /\ case_variant u t /\ occurs_in u ref) ->
  (forall t, t ∈ tokens -> ~ occurs_in t ref) ->
  Tracker.getReferralChannel (Some ref) = "other" /\
  Tracker.getReferralChannel (Some (lowercase ref)) ∈ tokens.
Proof.
  intros Hne (t & u & Hin & [_ Hlow] & Hocc) Hnone.
  split; [now apply getReferralChannel_none |].
  apply occurs_in_lowercase in Hocc. rewrite Hlow in Hocc.
  destruct (getReferralChannel_first (lowercase ref)) as (i & t' & Hi & _ & _ & ->); [eauto |].
  eapply list_elem_of_lookup_2, Hi.
Qed.

Lemma channel_case_sensitive_witness :
  Tracker.getReferralChannel (Some "https://www.Google.com/") = "other" /\
  Tracker.getReferralChannel (Some (lowercase "https://www.Google.com/")) ∈ tokens.
Proof.
  apply channel_case_sensitive.
  - discriminate.
  - exists "google", "Google". split; [apply list_elem_of_here |].
    split; [split; [discriminate | reflexivity] |].
    exists "https://www.", ".com/". reflexivity.
  - intros t Hin. apply not_includes_spec. revert t Hin. apply Forall_forall.
    unfold tokens. repeat constructor.
Defined.

(** ** Visitor identifier *)

Section CustomerId.

Implicit Types (a : ambient) (w : world).

(** A stored, non-empty identifier is returned as it is and nothing is
    written. *)
Lemma getCustomerId_hit a w cid :
  localStorage w !! Tracker.storage_key = Some cid -> cid <> "" ->
  Tracker.getCustomerId a w = (cid, w).
Proof.
  intros Hget Hne. apply string_truthy_spec in Hne.
  unfold Tracker.getCustomerId, getItem, mbind, M_bind, mret, M_ret.
  rewrite Hget. simpl. now rewrite Hne.
Qed.

(** With no identifier stored, or an empty one, a new one is made from
    the random text and the clock, stored and returned. *)
Lemma getCustomerId_miss a w :
  JS.present (localStorage w !! Tracker.storage_key) = false ->
  let cid := JS.substr 2 10 (random36 a) +:+ JS.toString36 (now a) in
  Tracker.getCustomerId a w =
    (cid, World (<[Tracker.storage_key := cid]> (localStorage w)) (console w)
                (network w) (window_attributionIQ w)).
Proof.
  intros Hmiss. unfold Tracker.getCustomerId, getItem, setItem, mbind, M_bind, mret, M_ret.
  now rewrite Hmiss.
Qed.

Lemma fresh_nonempty a : JS.substr 2 10 (random36 a) +:+ JS.toString36 (now a) <> "".
Proof. apply append_nonempty_r, toString36_nonempty. Qed.

Lemma present_cases (x : option string) :
  (exists s, x = Some s /\ s <> "") \/ JS.present x = false.
Proof.
  destruct x as [[|c s]|]; [right | left | right]; try reflexivity.
  eexists; split; [reflexivity | discriminate].
Qed.

(** The getter changes nothing but the storage, returns a non-empty
    identifier, and leaves that identifier stored. *)
Lemma getCustomerId_spec a w :
  exists cid store,
    Tracker.getCustomerId a w =
      (cid, World store (console w) (network w) (window_attributionIQ w)) /\
    cid <> "" /\ store !! Tracker.storage_key = Some cid.
Proof.
  destruct (present_cases (localStorage w !! Tracker.storage_key)) as [(s & Hs & Hne) | Hmiss].
  - exists s, (localStorage w). rewrite (getCustomerId_hit a w s Hs Hne).
    destruct w; auto.
  - eexists _, _. rewrite (getCustomerId_miss a w Hmiss).
    split; [reflexivity |]. split; [apply fresh_nonempty | apply lookup_insert_eq].
Qed.

(** A line written to the console does not change what the getter does. *)
Lemma getCustomerId_logged a w line :
  Tracker.getCustomerId a (logged line w) =
    (eval (Tracker.getCustomerId a) w, logged line (exec (Tracker.getCustomerId a) w)).
Proof.
  unfold eval, exec, Tracker.getCustomerId, getItem, setItem, mbind, M_bind, mret, M_ret, logged.
  simpl. destruct (JS.present (localStorage w !! Tracker.storage_key)); reflexivity.
Qed.

End CustomerId.



Example getCustomerId_first_visit :
  eval (Tracker.getCustomerId a_moment) configured_page = "4fzyo82mvyloyw3v28".
Proof. reflexivity. Qed.

(** ** Events *)

Section Events.

Implicit Types (a : ambient) (w : world) (x : JS.any).

(** What [value || 0] is serialised as. *)
Lemma or_zero_serialised x :
  Stringify.of_any (JS.or x (JS.Primitive (JS.Number Tracker.zero))) = conversion_value_sent x.
Proof. destruct x as [[| |[]|[]|[]]|[]| |]; reflexivity. Qed.

(** One conversion: the getter runs, then the event is serialised and,
    when that does not throw, [fetch] is called once. *)
Lemma trackConversion_run apiKey x a w :
  exists cid store,
    Tracker.getCustomerId a w =
      (cid, World store (console w) (network w) (window_attributionIQ w)) /\
    Tracker.trackConversion apiKey x a w =
      (serialisable x,
       World store (console w) (network w ++ conversion_requests apiKey cid x a)
             (window_attributionIQ w)).
Proof.
  destruct (getCustomerId_spec a w) as (cid & store & Heq & _ & _).
  exists cid, store. split; [exact Heq |].
  unfold Tracker.trackConversion, Tracker.trackEvent, mbind at 1, M_bind at 1.
  rewrite Heq. change Tracker.one with number_1_0.
  cbn [Stringify.stringify Stringify.of_any Stringify.of_value number_1_0].
  rewrite or_zero_serialised. unfold serialisable, conversion_requests.
  destruct (conversion_value_sent x); cbn; rewrite ?app_nil_r; reflexivity.
Qed.

(** Calling through the global reaches the installed closure. *)
Lemma call_trackConversion_installed apiKey x a w :
  installed w = Some (TrackConversion apiKey) ->
  Tracker.call_trackConversion x a w = Tracker.trackConversion apiKey x a w.
Proof.
  unfold installed. intros H.
  unfold Tracker.call_trackConversion, read_global, mbind at 1, M_bind at 1.
  now rewrite H.
Qed.

Lemma call_trackConversion_missing x a w :
  installed w = None -> Tracker.call_trackConversion x a w = (false, w).
Proof.
  unfold installed, Tracker.call_trackConversion, read_global, mbind at 1, M_bind at 1.
  now intros ->.
Qed.

(** A line written to the console does not change what a later call
    does: the call commutes with it. *)
Lemma trackConversion_logged apiKey x a w line :
  Tracker.trackConversion apiKey x a (logged line w) =
    (eval (Tracker.trackConversion apiKey x a) w,
     logged line (exec (Tracker.trackConversion apiKey x a) w)).
Proof.
  unfold eval, exec, Tracker.trackConversion, mbind, M_bind.
  rewrite getCustomerId_logged. unfold eval, exec.
  destruct (Tracker.getCustomerId a w) as [cid w1].
  unfold Tracker.trackEvent. destruct (Stringify.stringify _); reflexivity.
Qed.

Lemma call_trackConversion_logged x a w line :
  Tracker.call_trackConversion x a (logged line w) =
    (eval (Tracker.call_trackConversion x a) w,
     logged line (exec (Tracker.call_trackConversion x a) w)).
Proof.
  unfold eval, exec. destruct (installed w) as [[apiKey]|] eqn:Hw.
  - rewrite (call_trackConversion_installed apiKey x a (logged line w)) by exact Hw.
    rewrite (call_trackConversion_installed apiKey x a w Hw).
    now rewrite trackConversion_logged.
  - rewrite (call_trackConversion_missing x a (logged line w)) by exact Hw.
    now rewrite (call_trackConversion_missing x a w Hw).
Qed.

Lemma missing_not_present (x : option string) : missing_or_empty x -> JS.present x = false.
Proof. intros [-> | ->]; reflexivity. Qed.

(** Initialisation with a field missing or empty only logs. *)
Lemma init_invalid a w :
  missing_or_empty (config_field tenant_id w) \/ missing_or_empty (config_field api_key w) ->
  Tracker.DOMContentLoaded a w = (true, logged config_error w).
Proof.
  intros Hmissing.
  pose (config := default Tracker.empty_object (window_attributionIQ w)).
  assert (Hguard :
    negb (JS.present (tenant_id config)) || negb (JS.present (api_key config)) = true).
  { subst config. unfold config_field in Hmissing.
    destruct (window_attributionIQ w) as [g|]; [| reflexivity].
    cbn [property default from_option id] in *.
    destruct Hmissing as [H | H]; apply missing_not_present in H; rewrite H;
      [reflexivity | apply orb_true_r]. }
  unfold Tracker.DOMContentLoaded, read_global, mbind, M_bind. fold config.
  cbv beta iota. fold config. rewrite Hguard. reflexivity.
Qed.

(** Initialisation with both fields set sends the page view and installs
    the conversion function, closed over the configured key. *)
Lemma init_valid a w g t k :
  window_attributionIQ w = Some g -> tenant_id g = Some t -> api_key g = Some k ->
  t <> "" -> k <> "" ->
  exists cid store,
    Tracker.getCustomerId a w =
      (cid, World store (console w) (network w) (window_attributionIQ w)) /\
    Tracker.DOMContentLoaded a w =
      (true, World store (console w) (network w ++ [page_view_request k cid a])
                   (Some (AttributionIQ (Some t) (Some k) (Some (TrackConversion k))))).
Proof.
  intros Hg Ht Hk Htne Hkne.
  destruct (getCustomerId_spec a w) as (cid & store & Heq & _ & _).
  exists cid, store. split; [exact Heq |].
  apply string_truthy_spec in Htne, Hkne.
  destruct g as [t' k' f]. cbn [tenant_id api_key] in Ht, Hk. subst t' k'.
  unfold Tracker.DOMContentLoaded, read_global, mbind at 1, M_bind at 1.
  rewrite Hg. cbv [default from_option id tenant_id api_key JS.present].
  rewrite Htne, Hkne. cbn [negb orb]. unfold mbind at 1, M_bind at 1. rewrite Heq.
  unfold Tracker.trackEvent. change Tracker.one with number_1_0.
  cbn [Stringify.stringify Stringify.of_any Stringify.of_value number_1_0].
  unfold fetch, read_global, write_global, mbind, M_bind.
  cbn [localStorage console network window_attributionIQ].
  rewrite Hg. reflexivity.
Qed.

End Events.

Example one_is_1 : Tracker.one = S754_finite false (2 ^ 52) (-52).
Proof. reflexivity. Qed.

Example forty_two : JS.of_Z 42 = S754_finite false (21 * 2 ^ 48) (-47).
Proof. reflexivity. Qed.

(** C3: with [tenant_id] or [api_key] missing or empty, initialisation
    logs one error and does nothing else: no request is issued, the
    storage is not touched, and [window.attributionIQ] is left as it was,
    so that no conversion function is installed. *)
Theorem init_missing_credentials (a : ambient) (w : world) :
  missing_or_empty (config_field tenant_id w) \/ missing_or_empty (config_field api_key w) ->
  let w' := exec (Tracker.DOMContentLoaded a) w in
  console w' = console w ++ [config_error] /\
  network w' = network w /\
  localStorage w' = localStorage w /\
  window_attributionIQ w' = window_attributionIQ w /\
  installed w' = installed w.
Proof.
  intros Hmissing w'. subst w'. unfold exec.
  rewrite (init_invalid a w Hmissing). repeat split.
Qed.

Lemma init_missing_credentials_witness :
  let w' := exec (Tracker.DOMContentLoaded a_moment) unconfigured_page in
  console w' = console unconfigured_page ++ [config_error] /\
  network w' = network unconfigured_page /\
  localStorage w' = localStorage unconfigured_page /\
  window_attributionIQ w' = window_attributionIQ unconfigured_page /\
  installed w' = installed unconfigured_page.
Proof.
  apply (init_missing_credentials a_moment unconfigured_page).
  left. left. reflexivity.
Defined.

Example init_empty_api_key :
  exec (Tracker.DOMContentLoaded a_moment)
       (World ∅ [] [] (Some (AttributionIQ (Some "tenant-1") (Some "") None)))
  = World ∅ [config_error] [] (Some (AttributionIQ (Some "tenant-1") (Some "") None)).
Proof. reflexivity. Qed.

(** C4: with [tenant_id] and [api_key] both present and non-empty,
    initialisation issues exactly one request, a [POST] to the endpoint
    whose body has [value] 1.0 and no [is_conversion] field. *)
Theorem init_sends_one_page_view (a : ambient) (w : world) (g : attributionIQ) (t k : string) :
  window_attributionIQ w = Some g ->
  tenant_id g = Some t -> api_key g = Some k ->
  t <> "" -> k <> "" ->
  exists r,
    network (exec (Tracker.DOMContentLoaded a) w) = network w ++ [r] /\
    url r = endpoint_url /\ method r = "POST" /\
    JSON.field "value" (body r) = Some (JSON.JNumber number_1_0) /\
    JSON.field "is_conversion" (body r) = None.
Proof.
  intros Hg Ht Hk Htne Hkne.
  destruct (init_valid a w g t k Hg Ht Hk Htne Hkne) as (cid & store & _ & Hinit).
  unfold exec. rewrite Hinit. eexists. split; [reflexivity |]. repeat split.
Qed.

Lemma init_sends_one_page_view_witness :
  exists r,
    network (exec (Tracker.DOMContentLoaded a_moment) configured_page) = network configured_page ++ [r] /\
    url r = endpoint_url /\ method r = "POST" /\
    JSON.field "value" (body r) = Some (JSON.JNumber number_1_0) /\
    JSON.field "is_conversion" (body r) = None.
Proof.
  apply (init_sends_one_page_view a_moment configured_page
           (AttributionIQ (Some "tenant-1") (Some "key-1") None) "tenant-1" "key-1");
    try reflexivity; discriminate.
Defined.

(** C1, as the code has it: every call of the installed conversion
    function with a primitive argument (absent, [null], a boolean, a
    number or a string) issues exactly one request, whose body has
    [is_conversion: true] and a [conversion_value] that is the argument
    itself when it is a finite number, [0] when the argument is absent or
    otherwise falsy, and the argument unchanged when it is [true] or a
    non-empty string. *)
Theorem trackConversion_one_request (w : world) (apiKey : string) (v : JS.value) (a : ambient) :
  installed w = Some (TrackConversion apiKey) ->
  exists r,
    eval (Tracker.call_trackConversion v a) w = true /\
    network (exec (Tracker.call_trackConversion v a) w) = network w ++ [r] /\
    JSON.field "is_conversion" (body r) = Some (JSON.JBool true) /\
    JSON.field "conversion_value" (body r) = Some (sent_conversion_value v).
Proof.
  intros Hw. unfold eval, exec.
  rewrite (call_trackConversion_installed apiKey v a w Hw).
  destruct (trackConversion_run apiKey v a w) as (cid & store & _ & Hrun).
  unfold exec. rewrite Hrun. eexists. split; [reflexivity |].
  split; [reflexivity |]. split; reflexivity.
Qed.

Lemma trackConversion_one_request_witness :
  let w := exec (Tracker.DOMContentLoaded a_moment) configured_page in
  exists r,
    eval (Tracker.call_trackConversion (JS.Number (JS.of_Z 42)) a_moment) w = true /\
    network (exec (Tracker.call_trackConversion (JS.Number (JS.of_Z 42)) a_moment) w)
      = network w ++ [r] /\
    JSON.field "is_conversion" (body r) = Some (JSON.JBool true) /\
    JSON.field "conversion_value" (body r) = Some (JSON.JNumber (JS.of_Z 42)).
Proof.
  apply (trackConversion_one_request
           (exec (Tracker.DOMContentLoaded a_moment) configured_page) "key-1"
           (JS.Number (JS.of_Z 42)) a_moment).
  reflexivity.
Defined.

(** C1, as the specification has it, fails for a non-numeric argument:
    a call with the string ["abc"] sends [conversion_value: "abc"], not
    [0]. *)
Lemma trackConversion_string_not_coerced :
  let w := exec (Tracker.DOMContentLoaded a_moment) configured_page in
  exists r,
    network (exec (Tracker.call_trackConversion (JS.Str "abc") a_moment) w) = network w ++ [r] /\
    JSON.field "conversion_value" (body r) = Some (JSON.JString "abc") /\
    JSON.field "conversion_value" (body r) <> Some (JSON.JNumber Tracker.zero).
Proof.
  eexists. split; [reflexivity |]. split; [reflexivity | discriminate].
Qed.

Example trackConversion_no_argument :
  let w := exec (Tracker.DOMContentLoaded a_moment) configured_page in
  (JSON.field "conversion_value" ∘ body) <$>
    last (network (exec (Tracker.call_trackConversion JS.Undefined a_moment) w))
  = Some (Some (JSON.JNumber Tracker.zero)).
Proof. reflexivity. Qed.




Example trackConversion_bigint_throws :
  let w := exec (Tracker.DOMContentLoaded a_moment) configured_page in
  eval (Tracker.call_trackConversion (JS.BigInt 10) a_moment) w = false /\
  network (exec (Tracker.call_trackConversion (JS.BigInt 10) a_moment) w) = network w.
Proof. split; reflexivity. Qed.

(** C6: when the transport fails for a request, the [.catch] callback
    logs the error and the chained promise is fulfilled, so that no
    rejection is left for the page; the event is not sent again and
    nothing is kept of it; and a later tracking call returns and sends
    what it would have, the world differing by the logged line only. *)
Theorem transport_failure_is_contained (error : string) (w : world) :
  Tracker.trackEvent_settled (Failed error) w = (Fulfilled, logged (tracking_error error) w) /\
  network (logged (tracking_error error) w) = network w /\
  localStorage (logged (tracking_error error) w) = localStorage w /\
  window_attributionIQ (logged (tracking_error error) w) = window_attributionIQ w /\
  forall (v : JS.any) (a : ambient),
    Tracker.call_trackConversion v a (logged (tracking_error error) w) =
      (eval (Tracker.call_trackConversion v a) w,
       logged (tracking_error error) (exec (Tracker.call_trackConversion v a) w)).
Proof.
  repeat split. intros v a. apply call_trackConversion_logged.
Qed.

Example transport_failure_then_conversion :
  let w := exec (Tracker.DOMContentLoaded a_moment) configured_page in
  let failed := exec (Tracker.trackEvent_settled (Failed "TypeError: Failed to fetch")) w in
  console failed = [tracking_error "TypeError: Failed to fetch"] /\
  network (exec (Tracker.call_trackConversion (JS.Number (JS.of_Z 42)) a_moment) failed)
  = network (exec (Tracker.call_trackConversion (JS.Number (JS.of_Z 42)) a_moment) w).
Proof. split; reflexivity. Qed.

(** ** Radix-36 numerals and [substr] *)

Section Numerals.

Lemma digit_value_char (d : N) : (d < 36)%N -> digit_value (JS.digit_char d) = Some d.
Proof.
  intros Hd. unfold digit_value, JS.digit_char.
  destruct (d <? 10)%N eqn:Hlt.
  - apply N.ltb_lt in Hlt. rewrite N_ascii_embedding by lia.
    replace ((48 <=? 48 + d) && (48 + d <=? 57))%N with true
      by (symmetry; apply andb_true_iff; split; apply N.leb_le; lia).
    f_equal. lia.
  - apply N.ltb_ge in Hlt. rewrite N_ascii_embedding by lia.
    replace ((48 <=? 87 + d) && (87 + d <=? 57))%N with false
      by (symmetry; apply andb_false_iff; right; apply N.leb_gt; lia).
    replace ((97 <=? 87 + d) && (87 + d <=? 122))%N with true
      by (symmetry; apply andb_true_iff; split; apply N.leb_le; lia).
    f_equal. lia.
Qed.

(** With enough fuel the digits written for [n], read from zero, give
    [n] back. *)
Lemma parse36_digits36 fuel n acc :
  (n < 36 ^ N.of_nat (S fuel))%N ->
  parse36 0 (JS.digits36 fuel n acc) = parse36 n acc.
Proof.
  revert n acc. induction fuel as [|fuel IH]; intros n acc Hn.
  - change (36 ^ N.of_nat 1)%N with 36%N in Hn.
    cbn [JS.digits36 parse36]. rewrite N.mod_small by exact Hn.
    now rewrite digit_value_char.
  - cbn [JS.digits36].
    assert (Hmod : (n mod 36 < 36)%N) by (apply N.mod_lt; discriminate).
    assert (Hdiv : (n = n / 36 * 36 + n mod 36)%N)
      by (rewrite N.mul_comm; apply N.div_mod; discriminate).
    destruct (n / 36 =? 0)%N eqn:Hz.
    + apply N.eqb_eq in Hz. cbn [parse36]. rewrite digit_value_char by exact Hmod.
      f_equal. rewrite Hz in Hdiv. lia.
    + rewrite IH.
      * cbn [parse36]. rewrite digit_value_char by exact Hmod. now rewrite <- Hdiv.
      * apply N.Div0.div_lt_upper_bound.
        rewrite <- N.pow_succ_r', <- Nat2N.inj_succ. exact Hn.
Qed.

Lemma pos_below_size (p : positive) : (N.pos p < 2 ^ N.of_nat (Pos.size_nat p))%N.
Proof.
  induction p as [p IH | p IH |]; cbn [Pos.size_nat];
    rewrite ?Nat2N.inj_succ, ?N.pow_succ_r'; lia.
Qed.

Lemma enough_fuel (p : positive) : (N.pos p < 36 ^ N.of_nat (S (Pos.size_nat p)))%N.
Proof.
  pose proof (pos_below_size p) as Hp.
  assert (H2 : (2 ^ N.of_nat (Pos.size_nat p) <= 36 ^ N.of_nat (Pos.size_nat p))%N)
    by (apply N.pow_le_mono_l; lia).
  rewrite Nat2N.inj_succ, N.pow_succ_r'. lia.
Qed.

Lemma digits36_head fuel n acc :
  exists c rest, JS.digits36 fuel n acc = String c rest /\ exists d, c = JS.digit_char d /\ (d < 36)%N.
Proof.
  revert n acc. induction fuel as [|fuel IH]; intros n acc; cbn [JS.digits36].
  - eexists _, _. split; [reflexivity |]. eexists. split; [reflexivity |].
    apply N.mod_lt. discriminate.
  - destruct (n / 36 =? 0)%N; [| apply IH].
    eexists _, _. split; [reflexivity |]. eexists. split; [reflexivity |].
    apply N.mod_lt. discriminate.
Qed.

Lemma digit_char_not_minus d : (d < 36)%N -> JS.digit_char d <> "-"%char.
Proof.
  intros Hd Heq. apply (f_equal digit_value) in Heq.
  rewrite digit_value_char in Heq by exact Hd. discriminate.
Qed.

Lemma parseInt36_toString36 (n : Z) : parseInt36 (JS.toString36 n) = Some n.
Proof.
  destruct n as [|p|p]; [reflexivity | |]; cbn [JS.toString36].
  - destruct (digits36_head (Pos.size_nat p) (N.pos p) "") as (c & rest & Heq & d & -> & Hd).
    pose proof (parse36_digits36 (Pos.size_nat p) (N.pos p) "" (enough_fuel p)) as Hparse.
    rewrite Heq in *. unfold parseInt36.
    assert (Hc := digit_char_not_minus d Hd).
    destruct (JS.digit_char d) as [[] [] [] [] [] [] [] []];
      try (rewrite Hparse; reflexivity).
    now destruct Hc.
  - destruct (digits36_head (Pos.size_nat p) (N.pos p) "") as (c & rest & Heq & _).
    pose proof (parse36_digits36 (Pos.size_nat p) (N.pos p) "" (enough_fuel p)) as Hparse.
    rewrite Heq in *. unfold parseInt36. rewrite Hparse. reflexivity.
Qed.

Lemma toString36_inj (m n : Z) : JS.toString36 m = JS.toString36 n -> m = n.
Proof.
  intros Heq. apply (f_equal parseInt36) in Heq.
  rewrite !parseInt36_toString36 in Heq. congruence.
Qed.

Lemma append_inv_head (s t1 t2 : string) : s +:+ t1 = s +:+ t2 -> t1 = t2.
Proof.
  induction s as [|c s IH]; [auto |]. rewrite !append_cons. intros [= H]. auto.
Qed.

Lemma length_append (s t : string) :
  String.length (s +:+ t) = (String.length s + String.length t)%nat.
Proof. induction s as [|c s IH]; [reflexivity |]. rewrite append_cons. simpl. now rewrite IH. Qed.

(** [substr] cuts the string in three: what it skips, what it returns,
    and the rest. *)
Lemma substr_spec (start len : nat) (s : string) :
  exists pre post,
    s = pre +:+ JS.substr start len s +:+ post /\
    String.length pre = Nat.min start (String.length s) /\
    String.length (JS.substr start len s) = Nat.min len (String.length s - start).
Proof.
  revert start len. induction s as [|c s IH]; intros start len.
  - exists "", "". destruct start, len; repeat split.
  - destruct start as [|start].
    + destruct len as [|len]; cbn [JS.substr].
      * exists "", (String c s). repeat split.
      * destruct (IH 0%nat len) as (pre & post & Hs & Hpre & Hlen).
        destruct pre; [| discriminate].
        exists "", post. rewrite append_empty in *. rewrite append_cons.
        split; [now rewrite <- Hs |]. split; [reflexivity |].
        simpl. rewrite Hlen. now rewrite Nat.sub_0_r.
    + destruct (IH start len) as (pre & post & Hs & Hpre & Hlen).
      exists (String c pre), post. rewrite append_cons.
      assert (Hsub : JS.substr (S start) len (String c s) = JS.substr start len s)
        by (destruct len; reflexivity).
      rewrite Hsub. split; [now rewrite <- Hs |]. split; [simpl; now rewrite Hpre | exact Hlen].
Qed.

End Numerals.

Example parseInt36_samples :
  parseInt36 "loyw3v28" = Some 1700000000000 /\ parseInt36 "-1z" = Some (-71)
  /\ parseInt36 "" = None /\ parseInt36 "-" = None /\ parseInt36 "4F" = None.
Proof. repeat split; reflexivity. Qed.

(** ** More on the visitor identifier *)

Section CustomerIdFrame.

Implicit Types (a : ambient) (w : world).

(** Whatever is stored, the getter's effect is to store the identifier
    it returns (which changes nothing when that one was stored). *)
Lemma getCustomerId_stores a w :
  exists cid,
    cid <> "" /\
    Tracker.getCustomerId a w =
      (cid, World (<[Tracker.storage_key := cid]> (localStorage w)) (console w)
                  (network w) (window_attributionIQ w)).
Proof.
  destruct (present_cases (localStorage w !! Tracker.storage_key)) as [(s & Hs & Hne) | Hmiss].
  - exists s. split; [exact Hne |]. rewrite (getCustomerId_hit a w s Hs Hne).
    rewrite insert_id by exact Hs. now destruct w.
  - eexists. split; [apply fresh_nonempty |]. apply (getCustomerId_miss a w Hmiss).
Qed.

End CustomerIdFrame.

(** X2: the getter touches nothing but its own storage key: after the
    call the key holds the returned identifier, every other key holds
    what it held, and console, network and [window.attributionIQ] are
    as before. *)
Theorem getCustomerId_frame (a : ambient) (w : world) :
  let cid := eval (Tracker.getCustomerId a) w in
  let w' := exec (Tracker.getCustomerId a) w in
  localStorage w' !! Tracker.storage_key = Some cid /\
  (forall k, k <> Tracker.storage_key -> localStorage w' !! k = localStorage w !! k) /\
  console w' = console w /\ network w' = network w /\
  window_attributionIQ w' = window_attributionIQ w.
Proof.
  intros cid w'. subst cid w'. unfold eval, exec.
  destruct (getCustomerId_stores a w) as (cid & _ & ->). cbn [fst snd localStorage].
  split; [apply lookup_insert_eq |].
  split; [intros k Hk; now apply lookup_insert_ne |]. repeat split.
Qed.

Lemma getCustomerId_frame_witness :
  localStorage (exec (Tracker.getCustomerId a_moment) returning_page) !! "theme"
  = localStorage returning_page !! "theme".
Proof.
  apply (getCustomerId_frame a_moment returning_page). discriminate.
Defined.

(** X3: an empty string stored under the key counts as no identifier:
    the getter makes a new one and overwrites it. *)
Theorem getCustomerId_replaces_empty (a : ambient) (w : world) :
  localStorage w !! Tracker.storage_key = Some "" ->
  let cid := eval (Tracker.getCustomerId a) w in
  cid = JS.substr 2 10 (random36 a) +:+ JS.toString36 (now a) /\
  cid <> "" /\
  localStorage (exec (Tracker.getCustomerId a) w) !! Tracker.storage_key = Some cid.
Proof.
  intros Hempty cid. subst cid. unfold eval, exec.
  rewrite getCustomerId_miss by now rewrite Hempty.
  cbn [fst snd localStorage].
  split; [reflexivity |]. split; [apply fresh_nonempty | apply lookup_insert_eq].
Qed.

Lemma getCustomerId_replaces_empty_witness :
  let w := World {[Tracker.storage_key := ""]} [] [] None in
  let cid := eval (Tracker.getCustomerId a_moment) w in
  cid = JS.substr 2 10 (random36 a_moment) +:+ JS.toString36 (now a_moment) /\
  cid <> "" /\
  localStorage (exec (Tracker.getCustomerId a_moment) w) !! Tracker.storage_key = Some cid.
Proof.
  apply (getCustomerId_replaces_empty a_moment
           (World {[Tracker.storage_key := ""]} [] [] None)).
  reflexivity.
Defined.

(** X4: a new identifier is a random part followed by the clock: the
    random part is what follows the first two characters of the random
    text, cut at ten characters, and the rest is the radix-36 text of
    [Date.now()], which reads back as the clock. *)
Theorem fresh_id_shape (a : ambient) (w : world) :
  JS.present (localStorage w !! Tracker.storage_key) = false ->
  exists skipped part rest,
    random36 a = skipped +:+ part +:+ rest /\
    String.length skipped = Nat.min 2 (String.length (random36 a)) /\
    String.length part = Nat.min 10 (String.length (random36 a) - 2) /\
    eval (Tracker.getCustomerId a) w = part +:+ JS.toString36 (now a) /\
    parseInt36 (JS.toString36 (now a)) = Some (now a).
Proof.
  intros Hmiss.
  destruct (substr_spec 2 10 (random36 a)) as (skipped & rest & Hcut & Hskip & Hlen).
  exists skipped, (JS.substr 2 10 (random36 a)), rest.
  unfold eval. rewrite getCustomerId_miss by exact Hmiss.
  repeat split; auto using parseInt36_toString36.
Qed.

Lemma fresh_id_shape_witness :
  exists skipped part rest,
    random36 a_moment = skipped +:+ part +:+ rest /\
    String.length skipped = Nat.min 2 (String.length (random36 a_moment)) /\
    String.length part = Nat.min 10 (String.length (random36 a_moment) - 2) /\
    eval (Tracker.getCustomerId a_moment) configured_page
      = part +:+ JS.toString36 (now a_moment) /\
    parseInt36 (JS.toString36 (now a_moment)) = Some (now a_moment).
Proof. apply (fresh_id_shape a_moment configured_page). reflexivity. Defined.

(** X5: two new identifiers made from the same random text at different
    clock readings are different. *)
Theorem fresh_ids_differ_over_time (a1 a2 : ambient) (w1 w2 : world) :
  JS.present (localStorage w1 !! Tracker.storage_key) = false ->
  JS.present (localStorage w2 !! Tracker.storage_key) = false ->
  random36 a1 = random36 a2 ->
  now a1 <> now a2 ->
  eval (Tracker.getCustomerId a1) w1 <> eval (Tracker.getCustomerId a2) w2.
Proof.
  intros H1 H2 Hrandom Hnow. unfold eval.
  rewrite (getCustomerId_miss a1 w1 H1), (getCustomerId_miss a2 w2 H2).
  cbn [fst]. rewrite Hrandom. intros Heq.
  apply append_inv_head, toString36_inj in Heq. contradiction.
Qed.

Lemma fresh_ids_differ_over_time_witness :
  eval (Tracker.getCustomerId a_moment) configured_page
  <> eval (Tracker.getCustomerId (Ambient None "0.4fzyo82mvyr" 1700000000001)) configured_page.
Proof.
  apply (fresh_ids_differ_over_time a_moment
           (Ambient None "0.4fzyo82mvyr" 1700000000001) configured_page configured_page);
    [reflexivity | reflexivity | reflexivity | discriminate].
Defined.

(** ** More on channel derivation *)

Section ChannelRange.

Lemma direct_not_token : "direct" ∉ tokens.
Proof.
  unfold tokens. rewrite !not_elem_of_cons.
  repeat split; try discriminate. apply not_elem_of_nil.
Qed.

(** A token label comes from the loop: the referrer is not empty and
    the token occurs in it. *)
Lemma getReferralChannel_token (ref t : string) :
  t ∈ tokens -> Tracker.getReferralChannel (Some ref) = t -> occurs_in t ref.
Proof.
  intros Hin. unfold Tracker.getReferralChannel.
  destruct (JS.string_truthy ref); cbn [negb].
  - pose proof (first_match_spec ref tokens) as Hs. rewrite <- domains_tokens in Hs.
    destruct (Tracker.first_match ref Tracker.domains) as [t'|].
    + intros <-. now destruct Hs as (i & _ & Hocc & _).
    + intros <-. now apply other_not_token in Hin.
  - intros <-. now apply direct_not_token in Hin.
Qed.

Lemma append_assoc (s1 s2 s3 : string) : (s1 +:+ s2) +:+ s3 = s1 +:+ s2 +:+ s3.
Proof.
  induction s1 as [|c s1 IH]; [reflexivity |]. rewrite !append_cons. now rewrite IH.
Qed.

Lemma occurs_in_extend (t ref pre post : string) :
  occurs_in t ref -> occurs_in t (pre +:+ ref +:+ post).
Proof.
  intros (p & q & ->). exists (pre +:+ p), (q +:+ post).
  now rewrite !append_assoc.
Qed.

End ChannelRange.

(** X6: the label is always one of eleven: ["direct"], ["other"] or one
    of the nine tokens. *)
Theorem channel_range (referrer : option string) :
  Tracker.getReferralChannel referrer ∈ "direct" :: "other" :: tokens.
Proof.
  destruct referrer as [ref|]; [| apply list_elem_of_here].
  unfold Tracker.getReferralChannel.
  destruct (JS.string_truthy ref); cbn [negb]; [| apply list_elem_of_here].
  destruct (Tracker.first_match ref Tracker.domains) as [t|] eqn:Hm.
  - do 2 apply list_elem_of_further. now apply first_match_token in Hm.
  - apply list_elem_of_further, list_elem_of_here.
Qed.

(** X7: text added around a referrer that is labelled with a token
    cannot push the label down the list: the longer referrer is labelled
    with that token or with one listed before it. *)
Theorem channel_extension (ref pre post t : string) :
  t ∈ tokens ->
  Tracker.getReferralChannel (Some ref) = t ->
  exists i j t',
    tokens !! i = Some t /\ tokens !! j = Some t' /\ (j <= i)%nat /\
    Tracker.getReferralChannel (Some (pre +:+ ref +:+ post)) = t'.
Proof.
  intros Hin Hlabel.
  pose proof (getReferralChannel_token ref t Hin Hlabel) as Hocc.
  apply (occurs_in_extend t ref pre post) in Hocc.
  destruct (getReferralChannel_first (pre +:+ ref +:+ post)) as (j & t' & Hj & _ & Hmin & Hext);
    [eauto |].
  apply list_elem_of_lookup_1 in Hin as [i Hi].
  exists i, j, t'. repeat split; try assumption.
  destruct (le_lt_dec j i) as [Hle | Hlt]; [exact Hle |].
  exfalso. exact (Hmin i t Hlt Hi Hocc).
Qed.

Lemma channel_extension_witness :
  exists i j t',
    tokens !! i = Some "facebook" /\ tokens !! j = Some t' /\ (j <= i)%nat /\
    Tracker.getReferralChannel
      (Some ("https://" +:+ "m.facebook.com/" +:+ "?utm_source=bing")) = t'.
Proof.
  apply (channel_extension "m.facebook.com/" "https://" "?utm_source=bing" "facebook").
  - unfold tokens. do 4 apply list_elem_of_further. apply list_elem_of_here.
  - reflexivity.
Defined.

Example channel_query_string_wins :
  Tracker.getReferralChannel (Some "https://m.facebook.com/?utm_source=bing") = "bing".
Proof. reflexivity. Qed.

(** ** More on events *)

Section EventsFrame.

Implicit Types (a : ambient) (w : world) (x : JS.any).

(** The whole effect of one conversion: the identifier is stored and the
    requests of the call, one or none, are appended. *)
Lemma trackConversion_effect apiKey x a w :
  exists cid,
    cid <> "" /\
    Tracker.trackConversion apiKey x a w =
      (serialisable x,
       World (<[Tracker.storage_key := cid]> (localStorage w)) (console w)
             (network w ++ conversion_requests apiKey cid x a)
             (window_attributionIQ w)).
Proof.
  destruct (getCustomerId_stores a w) as (cid & Hne & Hget).
  destruct (trackConversion_run apiKey x a w) as (cid' & store & Hget' & Hrun).
  rewrite Hget in Hget'. injection Hget' as <- <-.
  exists cid. split; [exact Hne | exact Hrun].
Qed.

(** The whole effect of the handler on a configured page. *)
Lemma init_effect a w g t k :
  window_attributionIQ w = Some g -> tenant_id g = Some t -> api_key g = Some k ->
  t <> "" -> k <> "" ->
  exists cid,
    cid <> "" /\
    Tracker.DOMContentLoaded a w =
      (true, World (<[Tracker.storage_key := cid]> (localStorage w)) (console w)
                   (network w ++ [page_view_request k cid a])
                   (Some (AttributionIQ (Some t) (Some k) (Some (TrackConversion k))))).
Proof.
  intros Hg Ht Hk Htne Hkne.
  destruct (getCustomerId_stores a w) as (cid & Hne & Hget).
  destruct (init_valid a w g t k Hg Ht Hk Htne Hkne) as (cid' & store & Hget' & Hrun).
  rewrite Hget in Hget'. injection Hget' as <- <-.
  exists cid. split; [exact Hne | exact Hrun].
Qed.

(** With an identifier stored, a call through the global appends its
    requests and changes nothing else. *)
Lemma call_with_stored_id apiKey cid x a w :
  installed w = Some (TrackConversion apiKey) ->
  localStorage w !! Tracker.storage_key = Some cid -> cid <> "" ->
  Tracker.call_trackConversion x a w =
    (serialisable x,
     World (localStorage w) (console w)
           (network w ++ conversion_requests apiKey cid x a)
           (window_attributionIQ w)).
Proof.
  intros Hw Hcid Hne. rewrite (call_trackConversion_installed apiKey x a w Hw).
  destruct (trackConversion_run apiKey x a w) as (cid' & store & Hget & Hrun).
  rewrite (getCustomerId_hit a w cid Hcid Hne) in Hget.
  destruct w as [s c n g]. injection Hget as <- <-. exact Hrun.
Qed.

Lemma call_all_cons x a calls w :
  call_all ((x, a) :: calls) w = call_all calls (exec (Tracker.call_trackConversion x a) w).
Proof.
  unfold exec. cbn [call_all]. unfold mbind, M_bind.
  now destruct (Tracker.call_trackConversion x a w).
Qed.

Lemma settle_all_cons p outcomes w :
  settle_all (p :: outcomes) w = settle_all outcomes (exec (Tracker.trackEvent_settled p) w).
Proof.
  unfold exec. cbn [settle_all]. unfold mbind, M_bind.
  now destruct (Tracker.trackEvent_settled p w).
Qed.

Lemma exec_call_all_cons x a calls w :
  exec (call_all ((x, a) :: calls)) w
  = exec (call_all calls) (exec (Tracker.call_trackConversion x a) w).
Proof. unfold exec at 1 2. now rewrite call_all_cons. Qed.

Lemma exec_settle_all_cons p outcomes w :
  exec (settle_all (p :: outcomes)) w
  = exec (settle_all outcomes) (exec (Tracker.trackEvent_settled p) w).
Proof. unfold exec at 1 2. now rewrite settle_all_cons. Qed.

Lemma exec_call_installed apiKey x a w :
  installed w = Some (TrackConversion apiKey) ->
  exists cid,
    exec (Tracker.call_trackConversion x a) w =
      World (<[Tracker.storage_key := cid]> (localStorage w)) (console w)
            (network w ++ conversion_requests apiKey cid x a)
            (window_attributionIQ w).
Proof.
  intros Hw. destruct (trackConversion_effect apiKey x a w) as (cid & _ & Hrun).
  exists cid. unfold exec. rewrite (call_trackConversion_installed apiKey x a w Hw).
  now rewrite Hrun.
Qed.

Lemma exec_call_missing x a w :
  installed w = None -> exec (Tracker.call_trackConversion x a) w = w.
Proof. intros Hw. unfold exec. now rewrite (call_trackConversion_missing x a w Hw). Qed.

Lemma exec_call_stored apiKey cid x a w :
  installed w = Some (TrackConversion apiKey) ->
  localStorage w !! Tracker.storage_key = Some cid -> cid <> "" ->
  exec (Tracker.call_trackConversion x a) w =
    World (localStorage w) (console w)
          (network w ++ conversion_requests apiKey cid x a)
          (window_attributionIQ w).
Proof.
  intros Hw Hcid Hne. unfold exec.
  now rewrite (call_with_stored_id apiKey cid x a w Hw Hcid Hne).
Qed.

(** Every request of a conversion carries the identifier it was made
    for, and there is one request exactly when the event can be
    serialised. *)
Lemma conversion_requests_id apiKey cid x a :
  Forall (fun r => customer_id_of r = Some (JSON.JString cid))
         (conversion_requests apiKey cid x a).
Proof.
  unfold conversion_requests. destruct (conversion_value_sent x); repeat constructor.
Qed.

Lemma conversion_requests_length apiKey cid x a :
  length (conversion_requests apiKey cid x a) = (if serialisable x then 1 else 0)%nat.
Proof.
  unfold conversion_requests, serialisable. now destruct (conversion_value_sent x).
Qed.

(** The handler on a configured page where an identifier is stored. *)
Lemma init_stored a w g t k cid :
  window_attributionIQ w = Some g -> tenant_id g = Some t -> api_key g = Some k ->
  t <> "" -> k <> "" ->
  localStorage w !! Tracker.storage_key = Some cid -> cid <> "" ->
  exec (Tracker.DOMContentLoaded a) w =
    World (localStorage w) (console w) (network w ++ [page_view_request k cid a])
          (Some (AttributionIQ (Some t) (Some k) (Some (TrackConversion k)))).
Proof.
  intros Hg Ht Hk Htne Hkne Hcid Hne.
  destruct (init_valid a w g t k Hg Ht Hk Htne Hkne) as (cid' & store & Hget & Hrun).
  rewrite (getCustomerId_hit a w cid Hcid Hne) in Hget.
  destruct w as [s c n gl]. injection Hget as <- <-.
  unfold exec. now rewrite Hrun.
Qed.

(** A series of calls on a page where an identifier is stored. *)
Lemma call_all_stored apiKey cid calls w :
  installed w = Some (TrackConversion apiKey) ->
  localStorage w !! Tracker.storage_key = Some cid -> cid <> "" ->
  exec (call_all calls) w =
    World (localStorage w) (console w)
          (network w ++ flat_map (fun c => conversion_requests apiKey cid c.1 c.2) calls)
          (window_attributionIQ w).
Proof.
  intros Hw Hcid Hne. revert w Hw Hcid.
  induction calls as [|[x a] calls IH]; intros w Hw Hcid.
  - destruct w. unfold exec. cbn. now rewrite app_nil_r.
  - rewrite exec_call_all_cons, (exec_call_stored apiKey cid x a w Hw Hcid Hne).
    rewrite IH by assumption.
    cbn [localStorage console network window_attributionIQ flat_map fst snd].
    now rewrite <- app_assoc.
Qed.

Lemma trackEvent_settled_effect p w :
  exec (Tracker.trackEvent_settled p) w =
    World (localStorage w) (console w ++ map tracking_error (failures [p]))
          (network w) (window_attributionIQ w).
Proof.
  destruct w as [s c n g], p as [status | error]; cbn.
  - now rewrite app_nil_r.
  - reflexivity.
Qed.

End EventsFrame.

(** X8: on a configured page the handler sends exactly the page-view
    request: a [POST] to the endpoint with the JSON content type and the
    bearer key, whose body is the three fields [customer_id], [channel]
    and [value]; the identifier sent is not empty and is the one stored
    under the key afterwards. *)
Theorem page_view_request_exact (a : ambient) (w : world) (g : attributionIQ) (t k : string) :
  window_attributionIQ w = Some g ->
  tenant_id g = Some t -> api_key g = Some k ->
  t <> "" -> k <> "" ->
  let w' := exec (Tracker.DOMContentLoaded a) w in
  exists cid,
    cid <> "" /\
    network w' = network w ++ [page_view_request k cid a] /\
    localStorage w' !! Tracker.storage_key = Some cid /\
    cid = eval (Tracker.getCustomerId a) w.
Proof.
  intros Hg Ht Hk Htne Hkne w'. subst w'. unfold exec, eval.
  destruct (getCustomerId_stores a w) as (cid & Hne & Hget).
  destruct (init_valid a w g t k Hg Ht Hk Htne Hkne) as (cid' & store & Hget' & ->).
  rewrite Hget in Hget' |- *. injection Hget' as <- <-.
  exists cid. cbn [fst snd network localStorage].
  split; [exact Hne |]. split; [reflexivity |]. split; [apply lookup_insert_eq | reflexivity].
Qed.

Lemma page_view_request_exact_witness :
  let w' := exec (Tracker.DOMContentLoaded a_moment) returning_page in
  exists cid,
    cid <> "" /\
    network w' = network returning_page ++ [page_view_request "key-1" cid a_moment] /\
    localStorage w' !! Tracker.storage_key = Some cid /\
    cid = eval (Tracker.getCustomerId a_moment) returning_page.
Proof.
  apply (page_view_request_exact a_moment returning_page
           (AttributionIQ (Some "tenant-1") (Some "key-1") None) "tenant-1" "key-1");
    try reflexivity; discriminate.
Defined.

(** X9: on a configured page the handler installs the conversion
    function closed over the configured key, keeps [tenant_id] and
    [api_key] as they were, writes nothing to the console, and leaves
    every storage key but its own untouched. *)
Theorem init_installs (a : ambient) (w : world) (g : attributionIQ) (t k : string) :
  window_attributionIQ w = Some g ->
  tenant_id g = Some t -> api_key g = Some k ->
  t <> "" -> k <> "" ->
  let w' := exec (Tracker.DOMContentLoaded a) w in
  installed w' = Some (TrackConversion k) /\
  config_field tenant_id w' = Some t /\ config_field api_key w' = Some k /\
  console w' = console w /\
  forall key, key <> Tracker.storage_key -> localStorage w' !! key = localStorage w !! key.
Proof.
  intros Hg Ht Hk Htne Hkne w'. subst w'. unfold exec.
  destruct (init_effect a w g t k Hg Ht Hk Htne Hkne) as (cid & _ & ->).
  cbn [snd]. repeat split. intros key Hkey. now apply lookup_insert_ne.
Qed.

Lemma init_installs_witness :
  let w' := exec (Tracker.DOMContentLoaded a_moment) returning_page in
  installed w' = Some (TrackConversion "key-1") /\
  config_field tenant_id w' = Some "tenant-1" /\ config_field api_key w' = Some "key-1" /\
  console w' = console returning_page /\
  forall key, key <> Tracker.storage_key ->
    localStorage w' !! key = localStorage returning_page !! key.
Proof.
  apply (init_installs a_moment returning_page
           (AttributionIQ (Some "tenant-1") (Some "key-1") None) "tenant-1" "key-1");
    try reflexivity; discriminate.
Defined.

(** X10: the whole effect of a call of the installed conversion
    function, for an argument of any kind.  The identifier is stored
    under the key.  When [JSON.stringify] writes the argument-or-0, the
    call returns and one request is appended: a [POST] to the endpoint
    with the two headers and the five body fields.  When it leaves it
    out (a symbol, a function), the call returns and the one request has
    the first four fields only.  When it throws (a BigInt other than
    [0n], an object with a cycle), the call throws and nothing is sent.
    The console and [window.attributionIQ] are untouched. *)
Theorem conversion_request_exact (w : world) (apiKey : string) (x : JS.any) (a : ambient) :
  installed w = Some (TrackConversion apiKey) ->
  exists cid,
    cid <> "" /\
    Tracker.call_trackConversion x a w =
      (serialisable x,
       World (<["attributioniq_cid" := cid]> (localStorage w)) (console w)
             (network w ++ conversion_requests apiKey cid x a)
             (window_attributionIQ w)).
Proof.
  intros Hw. rewrite (call_trackConversion_installed apiKey x a w Hw).
  apply trackConversion_effect.
Qed.

Lemma conversion_request_exact_witness :
  let w := exec (Tracker.DOMContentLoaded a_moment) returning_page in
  exists cid,
    cid <> "" /\
    Tracker.call_trackConversion (JS.BigInt 42) a_moment w =
      (false,
       World (<["attributioniq_cid" := cid]> (localStorage w)) (console w)
             (network w) (window_attributionIQ w)).
Proof.
  apply (conversion_request_exact
           (exec (Tracker.DOMContentLoaded a_moment) returning_page) "key-1"
           (JS.BigInt 42) a_moment).
  reflexivity.
Defined.

Example conversion_request_of_42 :
  conversion_requests "key-1" "abc123" (JS.Number (JS.of_Z 42)) a_moment =
    [Request "https://attributioniq-saas.onrender.com/api/v1/track" "POST"
       [("Content-Type", "application/json"); ("Authorization", "Bearer key-1")]
       [("customer_id", JSON.JString "abc123");
        ("channel", JSON.JString "google");
        ("value", JSON.JNumber number_1_0);
        ("is_conversion", JSON.JBool true);
        ("conversion_value", JSON.JNumber (JS.of_Z 42))]].
Proof. reflexivity. Qed.

Example conversion_request_of_function :
  conversion_requests "key-1" "abc123" (JS.Object JS.Omitted) a_moment =
    [Request "https://attributioniq-saas.onrender.com/api/v1/track" "POST"
       [("Content-Type", "application/json"); ("Authorization", "Bearer key-1")]
       [("customer_id", JSON.JString "abc123");
        ("channel", JSON.JString "google");
        ("value", JSON.JNumber number_1_0);
        ("is_conversion", JSON.JBool true)]].
Proof. reflexivity. Qed.

(** X11: the conversion function sends the key it was created with.
    However the page changes [window.attributionIQ] after a valid
    initialisation, as long as the installed function stays in place its
    requests go to the endpoint with the bearer key read at
    initialisation. *)
Theorem conversion_uses_captured_key
    (a : ambient) (w : world) (g : attributionIQ) (t k : string)
    (later : world) (v : JS.value) (a' : ambient) :
  window_attributionIQ w = Some g ->
  tenant_id g = Some t -> api_key g = Some k ->
  t <> "" -> k <> "" ->
  installed later = installed (exec (Tracker.DOMContentLoaded a) w) ->
  exists r,
    network (exec (Tracker.call_trackConversion v a') later) = network later ++ [r] /\
    url r = endpoint_url /\ method r = "POST" /\
    headers r = [("Content-Type", "application/json"); ("Authorization", "Bearer " +:+ k)].
Proof.
  intros Hg Ht Hk Htne Hkne Hlater.
  assert (Hinst : installed later = Some (TrackConversion k)).
  { rewrite Hlater. unfold exec.
    destruct (init_effect a w g t k Hg Ht Hk Htne Hkne) as (cid & _ & ->). reflexivity. }
  unfold exec. rewrite (call_trackConversion_installed k v a' later Hinst).
  destruct (trackConversion_effect k v a' later) as (cid & _ & Hrun).
  unfold exec. rewrite Hrun. eexists. split; [reflexivity |]. repeat split.
Qed.

Lemma conversion_uses_captured_key_witness :
  let later :=
    World ∅ [] []
      (Some (AttributionIQ (Some "tenant-2") (Some "key-2") (Some (TrackConversion "key-1")))) in
  exists r,
    network (exec (Tracker.call_trackConversion JS.Undefined a_moment) later)
      = network later ++ [r] /\
    url r = endpoint_url /\ method r = "POST" /\
    headers r = [("Content-Type", "application/json"); ("Authorization", "Bearer key-1")].
Proof.
  apply (conversion_uses_captured_key a_moment configured_page
           (AttributionIQ (Some "tenant-1") (Some "key-1") None) "tenant-1" "key-1");
    try reflexivity; discriminate.
Defined.

(** X12: with an identifier stored, any series of conversion calls, each
    with an argument of any kind and at its own moment, sends one request
    for every call whose event can be serialised and none for a call
    that throws, in call order, every request with that identifier; the
    storage, the console and [window.attributionIQ] stay as they
    were. *)
Theorem conversions_share_id
    (w : world) (apiKey cid : string) (calls : list (JS.any * ambient)) :
  installed w = Some (TrackConversion apiKey) ->
  localStorage w !! Tracker.storage_key = Some cid -> cid <> "" ->
  let sent := flat_map (fun c => conversion_requests apiKey cid c.1 c.2) calls in
  exec (call_all calls) w =
    World (localStorage w) (console w) (network w ++ sent) (window_attributionIQ w) /\
  length sent = length (List.filter (fun c => serialisable c.1) calls) /\
  Forall (fun r => customer_id_of r = Some (JSON.JString cid)) sent.
Proof.
  intros Hw Hcid Hne sent. subst sent.
  split; [now apply call_all_stored |]. split.
  - induction calls as [|[x a] calls IH]; [reflexivity |].
    cbn [flat_map List.filter fst snd]. rewrite length_app, conversion_requests_length, IH.
    now destruct (serialisable x).
  - induction calls as [|[x a] calls IH]; [constructor |].
    cbn [flat_map fst snd]. apply Forall_app. split; [apply conversion_requests_id | exact IH].
Qed.

Lemma conversions_share_id_witness :
  let w := exec (Tracker.DOMContentLoaded a_moment) returning_page in
  let calls :=
    [(JS.Primitive (JS.Number (JS.of_Z 42)), a_moment);
     (JS.BigInt 7, a_moment);
     (JS.Symbol "order", a_moment)] in
  let sent := flat_map (fun c => conversion_requests "key-1" "abc123" c.1 c.2) calls in
  exec (call_all calls) w =
    World (localStorage w) (console w) (network w ++ sent) (window_attributionIQ w) /\
  length sent = 2%nat /\
  Forall (fun r => customer_id_of r = Some (JSON.JString "abc123")) sent.
Proof.
  apply (conversions_share_id
           (exec (Tracker.DOMContentLoaded a_moment) returning_page) "key-1" "abc123"
           [(JS.Primitive (JS.Number (JS.of_Z 42)), a_moment);
            (JS.BigInt 7, a_moment);
            (JS.Symbol "order", a_moment)]);
    [reflexivity | reflexivity | discriminate].
Defined.

(** X13: whatever the page holds, a series of conversion calls only
    appends to the network: one request for every call whose event can
    be serialised when the function is installed, and none otherwise.
    It never writes to the console or to [window.attributionIQ], and
    leaves every storage key but its own untouched. *)
Theorem call_all_frame (calls : list (JS.any * ambient)) (w : world) :
  let w' := exec (call_all calls) w in
  (exists sent,
     network w' = network w ++ sent /\
     length sent = match installed w with
                   | Some _ => length (List.filter (fun c => serialisable c.1) calls)
                   | None => 0%nat
                   end) /\
  console w' = console w /\
  window_attributionIQ w' = window_attributionIQ w /\
  forall key, key <> "attributioniq_cid" -> localStorage w' !! key = localStorage w !! key.
Proof.
  revert w. induction calls as [|[x a] calls IH]; intros w; cbn zeta.
  - unfold exec. cbn. split; [| auto].
    exists []. rewrite app_nil_r. split; [reflexivity | now destruct (installed w)].
  - rewrite exec_call_all_cons.
    destruct (installed w) as [[apiKey]|] eqn:Hw.
    + destruct (exec_call_installed apiKey x a w Hw) as (cid & ->).
      specialize (IH (World (<[Tracker.storage_key:=cid]> (localStorage w)) (console w)
                        (network w ++ conversion_requests apiKey cid x a)
                        (window_attributionIQ w))).
      cbn zeta in IH. destruct IH as ((sent & Hnet & Hlen) & Hcon & Hwin & Hsto).
      cbn [network console window_attributionIQ localStorage] in *.
      unfold installed in Hlen, Hw. cbn [window_attributionIQ] in Hlen. rewrite Hw in Hlen.
      split; [| split; [exact Hcon | split; [exact Hwin |]]].
      * exists (conversion_requests apiKey cid x a ++ sent).
        rewrite Hnet, <- app_assoc. split; [reflexivity |].
        rewrite length_app, conversion_requests_length, Hlen.
        cbn [List.filter fst]. now destruct (serialisable x).
      * intros key Hkey. rewrite Hsto by exact Hkey. now apply lookup_insert_ne.
    + rewrite (exec_call_missing x a w Hw).
      specialize (IH w). cbn zeta in IH. now rewrite Hw in IH.
Qed.

Lemma call_all_frame_witness :
  let w := exec (Tracker.DOMContentLoaded a_moment) returning_page in
  let w' := exec (call_all [(JS.Primitive (JS.Str "abc"), a_moment); (JS.BigInt 7, a_moment)]) w in
  localStorage w' !! "theme" = localStorage w !! "theme".
Proof.
  apply (call_all_frame [(JS.Primitive (JS.Str "abc"), a_moment); (JS.BigInt 7, a_moment)]
           (exec (Tracker.DOMContentLoaded a_moment) returning_page)).
  discriminate.
Defined.

(** X14: the handler running a second time on the same page sends a
    second page view with the same identifier and the same key, and
    leaves the storage, the console and the installed function as the
    first run left them. *)
Theorem handler_twice (a1 a2 : ambient) (w : world) (g : attributionIQ) (t k : string) :
  window_attributionIQ w = Some g ->
  tenant_id g = Some t -> api_key g = Some k ->
  t <> "" -> k <> "" ->
  let w1 := exec (Tracker.DOMContentLoaded a1) w in
  let w2 := exec (Tracker.DOMContentLoaded a2) w1 in
  exists cid,
    network w2 = network w ++ [page_view_request k cid a1; page_view_request k cid a2] /\
    localStorage w2 = localStorage w1 /\
    window_attributionIQ w2 = window_attributionIQ w1 /\
    console w2 = console w.
Proof.
  intros Hg Ht Hk Htne Hkne w1 w2. subst w2 w1.
  destruct (init_effect a1 w g t k Hg Ht Hk Htne Hkne) as (cid & Hne & Hrun).
  apply (f_equal snd) in Hrun. fold (exec (Tracker.DOMContentLoaded a1) w) in Hrun.
  cbn [snd] in Hrun. rewrite Hrun. set (w1 := World _ _ _ _).
  rewrite (init_stored a2 w1 (AttributionIQ (Some t) (Some k) (Some (TrackConversion k)))
             t k cid eq_refl eq_refl eq_refl Htne Hkne (lookup_insert_eq _ _ _) Hne).
  subst w1. cbn [network localStorage window_attributionIQ console].
  exists cid. rewrite <- app_assoc. repeat split.
Qed.

Lemma handler_twice_witness :
  let w1 := exec (Tracker.DOMContentLoaded a_moment) configured_page in
  let w2 := exec (Tracker.DOMContentLoaded (Ambient None "0.zzz" 1700000060000)) w1 in
  exists cid,
    network w2 = network configured_page ++
      [page_view_request "key-1" cid a_moment;
       page_view_request "key-1" cid (Ambient None "0.zzz" 1700000060000)] /\
    localStorage w2 = localStorage w1 /\
    window_attributionIQ w2 = window_attributionIQ w1 /\
    console w2 = console configured_page.
Proof.
  apply (handler_twice a_moment (Ambient None "0.zzz" 1700000060000) configured_page
           (AttributionIQ (Some "tenant-1") (Some "key-1") None) "tenant-1" "key-1");
    try reflexivity; discriminate.
Defined.

(** X15: after an initialisation that stopped on a missing or empty
    field, on a page that had no conversion function, a call of
    [window.attributionIQ.trackConversion] finds nothing to call and
    nothing is sent. *)
Theorem failed_init_then_call (a a' : ambient) (w : world) (v : JS.value) :
  missing_or_empty (config_field tenant_id w) \/ missing_or_empty (config_field api_key w) ->
  installed w = None ->
  let w' := exec (Tracker.DOMContentLoaded a) w in
  Tracker.call_trackConversion v a' w' = (false, w') /\ network w' = network w.
Proof.
  intros Hmissing Hnone w'. subst w'. unfold exec.
  rewrite (init_invalid a w Hmissing). cbn [snd].
  split; [| reflexivity]. now apply call_trackConversion_missing.
Qed.

Lemma failed_init_then_call_witness :
  let w' := exec (Tracker.DOMContentLoaded a_moment) unconfigured_page in
  Tracker.call_trackConversion (JS.Number (JS.of_Z 42)) a_moment w' = (false, w') /\
  network w' = network unconfigured_page.
Proof.
  apply (failed_init_then_call a_moment a_moment unconfigured_page (JS.Number (JS.of_Z 42)));
    [left; left |]; reflexivity.
Defined.

(** X16: however the transport settles the requests, the script only
    logs: one console line per failure, in order, each with the error;
    responses of any status leave no trace; nothing is sent again and
    neither the storage nor [window.attributionIQ] changes. *)
Theorem settle_all_only_logs (outcomes : list outcome) (w : world) :
  exec (settle_all outcomes) w =
    World (localStorage w) (console w ++ map tracking_error (failures outcomes))
          (network w) (window_attributionIQ w).
Proof.
  revert w. induction outcomes as [|p outcomes IH]; intros w.
  - destruct w. unfold exec. cbn. now rewrite app_nil_r.
  - rewrite exec_settle_all_cons, IH, trackEvent_settled_effect.
    cbn [localStorage console network window_attributionIQ].
    rewrite <- app_assoc. destruct p; reflexivity.
Qed.

Example settle_all_sample :
  console (exec (settle_all [Responded 500; Failed "TypeError: Failed to fetch"; Responded 200])
                configured_page)
  = [tracking_error "TypeError: Failed to fetch"].
Proof. reflexivity. Qed.

(** X17: over a whole page load on a configured page, the page view and
    every later conversion carry one and the same identifier, the one
    stored under the key.  The requests are the page view followed, in
    call order, by one request for every call whose event can be
    serialised, all with the configured key; a call that throws sends
    nothing and does not disturb the others. *)
Theorem session_shares_id
    (a : ambient) (w : world) (g : attributionIQ) (t k : string)
    (calls : list (JS.any * ambient)) :
  window_attributionIQ w = Some g ->
  tenant_id g = Some t -> api_key g = Some k ->
  t <> "" -> k <> "" ->
  let w' := exec (call_all calls) (exec (Tracker.DOMContentLoaded a) w) in
  exists cid sent,
    cid <> "" /\
    network w' = network w ++ sent /\
    sent = page_view_request k cid a
             :: flat_map (fun c => conversion_requests k cid c.1 c.2) calls /\
    length sent = S (length (List.filter (fun c => serialisable c.1) calls)) /\
    Forall (fun r => customer_id_of r = Some (JSON.JString cid)) sent /\
    localStorage w' !! "attributioniq_cid" = Some cid.
Proof.
  intros Hg Ht Hk Htne Hkne w'. subst w'.
  destruct (init_effect a w g t k Hg Ht Hk Htne Hkne) as (cid & Hne & Hrun).
  apply (f_equal snd) in Hrun. fold (exec (Tracker.DOMContentLoaded a) w) in Hrun.
  cbn [snd] in Hrun. rewrite Hrun. set (w1 := World _ _ _ _).
  rewrite (call_all_stored k cid calls w1 eq_refl (lookup_insert_eq _ _ _) Hne). subst w1.
  cbn [network localStorage window_attributionIQ console].
  exists cid, (page_view_request k cid a
                 :: flat_map (fun c => conversion_requests k cid c.1 c.2) calls).
  rewrite <- app_assoc.
  split; [exact Hne |]. split; [reflexivity |]. split; [reflexivity |].
  split; [| split; [| apply lookup_insert_eq]].
  - cbn [length]. f_equal.
    induction calls as [|[x a'] calls IH]; [reflexivity |].
    cbn [flat_map List.filter fst snd]. rewrite length_app, conversion_requests_length, IH.
    now destruct (serialisable x).
  - constructor; [reflexivity |].
    induction calls as [|[x a'] calls IH]; [constructor |].
    cbn [flat_map fst snd]. apply Forall_app. split; [apply conversion_requests_id | exact IH].
Qed.

Lemma session_shares_id_witness :
  let calls := [(JS.Primitive (JS.Number (JS.of_Z 42)), a_moment); (JS.BigInt 7, a_moment)] in
  let w' := exec (call_all calls) (exec (Tracker.DOMContentLoaded a_moment) configured_page) in
  exists cid sent,
    cid <> "" /\
    network w' = network configured_page ++ sent /\
    sent = page_view_request "key-1" cid a_moment
             :: flat_map (fun c => conversion_requests "key-1" cid c.1 c.2) calls /\
    length sent = 2%nat /\
    Forall (fun r => customer_id_of r = Some (JSON.JString cid)) sent /\
    localStorage w' !! "attributioniq_cid" = Some cid.
Proof.
  apply (session_shares_id a_moment configured_page
           (AttributionIQ (Some "tenant-1") (Some "key-1") None) "tenant-1" "key-1"
           [(JS.Primitive (JS.Number (JS.of_Z 42)), a_moment); (JS.BigInt 7, a_moment)]);
    try reflexivity; discriminate.
Defined.

(** X18: on every page the handler does one of two things and never
    both: with a field missing or empty it logs the configuration error
    and sends nothing; with both fields non-empty it sends one request,
    logs nothing and installs the conversion function. *)
Theorem init_logs_or_sends (a : ambient) (w : world) :
  let w' := exec (Tracker.DOMContentLoaded a) w in
  ((missing_or_empty (config_field tenant_id w) \/ missing_or_empty (config_field api_key w)) /\
   console w' = console w ++ [config_error] /\ network w' = network w /\
   installed w' = installed w)
  \/
  ((exists t k, config_field tenant_id w = Some t /\ config_field api_key w = Some k /\
                t <> "" /\ k <> "" /\ installed w' = Some (TrackConversion k)) /\
   console w' = console w /\ exists r, network w' = network w ++ [r]).
Proof.
  cbn zeta. unfold exec.
  destruct (window_attributionIQ w) as [[[[|c t]|] [[|c' k]|] f]|] eqn:Hg.
  all: try (left; split;
            [ unfold config_field, missing_or_empty; rewrite Hg; cbn; auto
            | rewrite init_invalid
                by (unfold config_field, missing_or_empty; rewrite Hg; cbn; auto);
              repeat split ]).
  right.
  destruct (init_effect a w _ (String c t) (String c' k) Hg eq_refl eq_refl)
    as (cid & _ & ->); try discriminate.
  cbn [snd console network]. split; [| split; [reflexivity | eauto]].
  exists (String c t), (String c' k). unfold config_field. rewrite Hg.
  repeat split; discriminate.
Qed.

(** X19: when the stored identifier has been removed between two
    events, the next conversion call, whatever its argument, makes a new
    one from the random text and the clock of that call and stores it;
    the request of the call, if its event can be serialised, carries
    the new identifier. *)
Theorem conversion_after_cleared_storage
    (w : world) (apiKey : string) (x : JS.any) (a : ambient) :
  installed w = Some (TrackConversion apiKey) ->
  localStorage w !! "attributioniq_cid" = None ->
  let cid := JS.substr 2 10 (random36 a) +:+ JS.toString36 (now a) in
  exec (Tracker.call_trackConversion x a) w =
    World (<["attributioniq_cid" := cid]> (localStorage w)) (console w)
          (network w ++ conversion_requests apiKey cid x a)
          (window_attributionIQ w) /\
  Forall (fun r => customer_id_of r = Some (JSON.JString cid))
         (conversion_requests apiKey cid x a).
Proof.
  intros Hw Hnone cid. split; [| apply conversion_requests_id].
  destruct (trackConversion_run apiKey x a w) as (cid' & store & Hget & Hrun).
  rewrite getCustomerId_miss in Hget
    by (change Tracker.storage_key with "attributioniq_cid"; now rewrite Hnone).
  injection Hget as <- <-.
  unfold exec. rewrite (call_trackConversion_installed apiKey x a w Hw).
  now rewrite Hrun.
Qed.

Lemma conversion_after_cleared_storage_witness :
  let w := World ∅ [] []
             (Some (AttributionIQ (Some "tenant-1") (Some "key-1")
                                  (Some (TrackConversion "key-1")))) in
  exec (Tracker.call_trackConversion (JS.BigInt 7) a_moment) w =
    World {["attributioniq_cid" := "4fzyo82mvyloyw3v28"]} [] [] (window_attributionIQ w) /\
  Forall (fun r => customer_id_of r = Some (JSON.JString "4fzyo82mvyloyw3v28")) [].
Proof.
  apply (conversion_after_cleared_storage
           (World ∅ [] []
              (Some (AttributionIQ (Some "tenant-1") (Some "key-1")
                                   (Some (TrackConversion "key-1")))))
           "key-1" (JS.BigInt 7) a_moment); reflexivity.
Defined.

Example conversion_after_cleared_storage_sample :
  let w := World ∅ [] []
             (Some (AttributionIQ (Some "tenant-1") (Some "key-1")
                                  (Some (TrackConversion "key-1")))) in
  network (exec (Tracker.call_trackConversion JS.Undefined a_moment) w) =
    conversion_requests "key-1" "4fzyo82mvyloyw3v28" JS.Undefined a_moment.
Proof. reflexivity. Qed.
